(** * commonspace: the per-study schema and data-point persistence layer

    A shallow embedding of the data-access module of the commonspace
    server: table provisioning ([createNewTableFromGehlFields]), the data
    point codec ([transformToPostgresInsert] and the functions it calls) and
    the delete path of the persistence gateway ([deleteDataPoint]).

    JavaScript values are an inductive type, objects are association lists
    in own-property order, a [throw] is the [Throw] branch of [Result], and
    the connection pool is a state-passing function. *)

From Stdlib Require Import String Ascii List Arith Bool Lia DecimalString.
Import ListNotations.
Open Scope string_scope.
Set Warnings "-register-all".
Set Warnings "-automation".


(** ** JavaScript values *)

Module Js.

(** A number is only ever moved around and interpolated by this code, never
    computed with: it is carried as the text that [Number.prototype.toString]
    gives for it (so [-0] is carried as ["0"]). *)
Inductive JsVal : Type :=
| JNull
| JUndefined
| JBool (b : bool)
| JNum (text : string)
| JStr (s : string)
| JArr (elems : list JsVal)
| JObj (props : list (string * JsVal)).

(** An object: its own enumerable string-keyed properties in the order
    [Object.keys] lists them. *)
Definition Obj : Type := list (string * JsVal).

(** Every [throw] site of the module, and the [TypeError] the runtime raises
    when a property of [null] or [undefined] is read. Each constructor
    carries what the message interpolates. *)
Inductive JsError : Type :=
| TypeError (read : string)
| NullInArray (xs : list JsVal)
| InvalidGroups (value : JsVal)
| InvalidAge (value : JsVal)
| UnexpectedKey (key : string)
| NoTablePossible (fields : list string)
| NoTablenameFound (surveyId : string)
| NoDataPointFound (query : string) (dataPointId : JsVal)
| DatabaseError (message : string).

Inductive Result (A : Type) : Type :=
| Ok (a : A)
| Throw (e : JsError).
Arguments Ok {A} a.
Arguments Throw {A} e.

Definition bind {A B : Type} (r : Result A) (k : A -> Result B) : Result B :=
  match r with
  | Ok a => k a
  | Throw e => Throw e
  end.

Definition is_Ok {A : Type} (r : Result A) : bool :=
  match r with Ok _ => true | Throw _ => false end.

Definition is_Throw {A : Type} (r : Result A) : bool := negb (is_Ok r).

Module Notations.
  Notation "x <- e ;; k" := (bind e (fun x => k))
    (at level 61, e at next level, right associativity).
End Notations.
Import Notations.

Section MapM.
Context {A B : Type} (f : A -> Result B).

(** [Array.prototype.map] with a callback that may throw: the first
    throw, in index order, aborts the whole map. *)
Fixpoint mapM (l : list A) : Result (list B) :=
  match l with
  | [] => Ok []
  | x :: l' => y <- f x ;; ys <- mapM l' ;; Ok (y :: ys)
  end.
End MapM.

(** *** ToString, join, truthiness *)

(** The [ToString] abstract operation, as used by template literals, on
    the values of the data; an object has the text of a plain object, the
    one it has when no property [toString] of its own hides the inherited
    method (see [interpolable]). *)
Fixpoint ToString (x : JsVal) : string :=
  match x with
  | JNull => "null"
  | JUndefined => "undefined"
  | JBool true => "true"
  | JBool false => "false"
  | JNum text => text
  | JStr s => s
  | JArr xs =>
      String.concat ","
        (map (fun y => match y with
                       | JNull | JUndefined => ""
                       | _ => ToString y
                       end) xs)
  | JObj _ => "[object Object]"
  end.

(** An element of [Array.prototype.join]: [null] and [undefined] give the
    empty string. *)
Definition join_element (y : JsVal) : string :=
  match y with
  | JNull | JUndefined => ""
  | _ => ToString y
  end.

Definition Array_join (sep : string) (xs : list JsVal) : string :=
  String.concat sep (map join_element xs).

Definition truthy (x : JsVal) : bool :=
  match x with
  | JNull | JUndefined => false
  | JBool b => b
  | JNum text => negb (String.eqb text "0" || String.eqb text "NaN")
  | JStr s => negb (String.eqb s "")
  | JArr _ | JObj _ => true
  end.

(** [v === 'literal'] *)
Definition strict_eq_string (v : JsVal) (literal : string) : bool :=
  match v with
  | JStr s => String.eqb s literal
  | _ => false
  end.

Definition is_null (v : JsVal) : bool :=
  match v with JNull => true | _ => false end.

Definition Array_isArray (v : JsVal) : bool :=
  match v with JArr _ => true | _ => false end.

(** *** Objects *)

(** [o[k]]: [undefined] when [o] has no such property. *)
Fixpoint obj_get (o : Obj) (k : string) : JsVal :=
  match o with
  | [] => JUndefined
  | (k', v) :: o' => if String.eqb k' k then v else obj_get o' k
  end.

(** [o[k] = v]: an existing property keeps its place, a new one goes last
    (the keys written by this module are not array indices). *)
Fixpoint obj_set (o : Obj) (k : string) (v : JsVal) : Obj :=
  match o with
  | [] => [(k, v)]
  | (k', v') :: o' =>
      if String.eqb k' k then (k', v) :: o' else (k', v') :: obj_set o' k v
  end.

(** [delete o[k]] *)
Definition obj_delete (o : Obj) (k : string) : Obj :=
  filter (fun p => negb (String.eqb (fst p) k)) o.

Definition Object_keys (o : Obj) : list string := map fst o.

(** [v.k] for one of the names this module reads ([type], [longitude],
    [latitude]): a [TypeError] on [null] and [undefined], the own property
    of an object, and [undefined] on a primitive or an array, whose
    prototypes have no property of these names. *)
Definition get_prop (v : JsVal) (k : string) : Result JsVal :=
  match v with
  | JNull | JUndefined => Throw (TypeError k)
  | JObj props => Ok (obj_get props k)
  | _ => Ok JUndefined
  end.

(** *** JSON.stringify *)

Definition quote_char : ascii := ascii_of_nat 34.
Definition backslash : ascii := ascii_of_nat 92.

Definition hex_digit (n : nat) : ascii :=
  nth n ["0"; "1"; "2"; "3"; "4"; "5"; "6"; "7"; "8"; "9";
         "a"; "b"; "c"; "d"; "e"; "f"]%char "0"%char.

Definition escape_char (c : ascii) : string :=
  let n := nat_of_ascii c in
  if Nat.eqb n 34 then String backslash (String quote_char "")
  else if Nat.eqb n 92 then String backslash (String backslash "")
  else if Nat.eqb n 8 then String backslash "b"
  else if Nat.eqb n 9 then String backslash "t"
  else if Nat.eqb n 10 then String backslash "n"
  else if Nat.eqb n 12 then String backslash "f"
  else if Nat.eqb n 13 then String backslash "r"
  else if Nat.ltb n 32 then
    String backslash
      (String "u" (String "0" (String "0"
         (String (hex_digit (n / 16)) (String (hex_digit (n mod 16)) "")))))
  else String c "".

Fixpoint escape_string (s : string) : string :=
  match s with
  | EmptyString => ""
  | String c s' => escape_char c ++ escape_string s'
  end.

Definition QuoteJSONString (s : string) : string :=
  String quote_char (escape_string s ++ String quote_char "").

Definition non_finite (text : string) : bool :=
  String.eqb text "NaN" || String.eqb text "Infinity"
  || String.eqb text "-Infinity".

(** [SerializeJSONProperty]: [None] is the [undefined] that the operation
    gives for an [undefined] value. *)
Fixpoint SerializeJSONProperty (x : JsVal) : option string :=
  match x with
  | JUndefined => None
  | JNull => Some "null"
  | JBool true => Some "true"
  | JBool false => Some "false"
  | JNum text => Some (if non_finite text then "null" else text)
  | JStr s => Some (QuoteJSONString s)
  | JArr xs =>
      Some ("[" ++ String.concat ","
                     (map (fun y => match SerializeJSONProperty y with
                                    | Some s => s
                                    | None => "null"
                                    end) xs) ++ "]")
  | JObj props =>
      Some ("{" ++ String.concat ","
                     (flat_map
                        (fun p => match SerializeJSONProperty (snd p) with
                                  | Some s => [QuoteJSONString (fst p) ++ ":" ++ s]
                                  | None => []
                                  end) props) ++ "}")
  end.

Definition JSON_stringify (x : JsVal) : JsVal :=
  match SerializeJSONProperty x with
  | Some s => JStr s
  | None => JUndefined
  end.

(** Decimal text of a placeholder index. *)
Definition nat_to_string (n : nat) : string :=
  NilZero.string_of_uint (Nat.to_uint n).

End Js.
Export Js.
Import Js.Notations.

(** ** Schema registry and table provisioner *)

Module Provisioner.

(** The [GehlFields] string-literal union. *)
Inductive GehlFields : Type :=
| gender | age | mode | posture | activities | groups | object
| location | note | creation_date | last_updated.

(** The string a [GehlFields] value is at run time. *)
Definition field_name (f : GehlFields) : string :=
  match f with
  | gender => "gender"
  | age => "age"
  | mode => "mode"
  | posture => "posture"
  | activities => "activities"
  | groups => "groups"
  | object => "object"
  | location => "location"
  | note => "note"
  | creation_date => "creation_date"
  | last_updated => "last_updated"
  end.

Definition GehlFields_eqb (f g : GehlFields) : bool :=
  String.eqb (field_name f) (field_name g).

(** The part of [Study] that is required; [createNewTableFromGehlFields]
    takes a study and reads none of its properties. *)
Record Study : Type := {
  studyId : string;
  userId : string;
  type : string;
  protocolVersion : string
}.

(** A [Set] of strings: its elements in insertion order. *)
Definition Set_add (s : list string) (x : string) : list string :=
  if existsb (String.eqb x) s then s else (s ++ [x])%list.

Definition new_Set (xs : list string) : list string :=
  fold_left Set_add xs [].

Definition Set_has (s : list string) (x : string) : bool :=
  existsb (String.eqb x) s.

(** [Array.from(s).toString()] *)
Definition setString (s : list string) : string := String.concat "," s.

Definition genderLocationArray : list GehlFields := [gender; location].
Definition genderLocation : list string :=
  new_Set (map field_name genderLocationArray).

Definition allGehlFieldsArray : list GehlFields :=
  [gender; age; mode; posture; activities; groups; object; location;
   creation_date; last_updated; note].
Definition allGehlFields : list string :=
  new_Set (map field_name allGehlFieldsArray).
Definition allGehlFieldsStrings : list string := allGehlFields.

(** A template literal that spans several source lines: the lines are
    joined by a line feed and the source's indentation. *)
Definition LF : string := String (ascii_of_nat 10) "".

Definition template (indent : string) (lines : list string) : string :=
  String.concat (LF ++ indent) lines.

Definition indent20 : string := "                    ".

Definition genderLocationTable (tablename : string) : string :=
  template indent20
    ["CREATE TABLE " ++ tablename ++ " (";
     "survey_id UUID references data_collection.survey(survey_id) NOT NULL,";
     "data_point_id UUID PRIMARY KEY NOT NULL,";
     "gender data_collection.gender,";
     "creation_date timestamptz,";
     "last_updated timestamptz,";
     "location geometry NOT NULL";
     ")"].

Definition allGehlFieldsTable (tablename : string) : string :=
  template indent20
    ["CREATE TABLE " ++ tablename ++ " (";
     "survey_id UUID references data_collection.survey(survey_id) NOT NULL,";
     "data_point_id UUID PRIMARY KEY NOT NULL,";
     "gender data_collection.gender,";
     "age varchar(64),";
     "mode data_collection.mode,";
     "posture data_collection.posture,";
     "activities data_collection.activities[],";
     "groups data_collection.groups,";
     "object data_collection.object,";
     "location geometry NOT NULL,";
     "creation_date timestamptz,";
     "last_updated timestamptz,";
     "note text";
     ")"].

Definition createNewTableFromGehlFields
    (study : Study) (tablename : string) (fields : list GehlFields)
    : Result string :=
  let asSet := new_Set (map field_name fields) in
  let comparisionString := setString asSet in
  if String.eqb comparisionString (setString genderLocation) then
    Ok (genderLocationTable tablename)
  else if String.eqb comparisionString (setString allGehlFields) then
    Ok (allGehlFieldsTable tablename)
  else
    Throw (NoTablePossible (map field_name fields)).

(** *** The column definitions of a CREATE TABLE text *)

Record Column : Type := { col_name : string; col_type : string }.

Definition render_column (c : Column) : string :=
  col_name c ++ " " ++ col_type c.

(** Every definition but the last is followed by a comma. *)
Fixpoint comma_separated (defs : list string) : list string :=
  match defs with
  | [] => []
  | [d] => [d]
  | d :: defs' => (d ++ ",") :: comma_separated defs'
  end.

Definition create_table_text (tablename : string) (cols : list Column) : string :=
  template indent20
    (("CREATE TABLE " ++ tablename ++ " (")
       :: (comma_separated (map render_column cols) ++ [")"])%list).

Definition survey_id_column : Column :=
  {| col_name := "survey_id";
     col_type := "UUID references data_collection.survey(survey_id) NOT NULL" |}.

Definition data_point_id_column : Column :=
  {| col_name := "data_point_id"; col_type := "UUID PRIMARY KEY NOT NULL" |}.

(** The column each Gehl field has in the tables of this module. *)
Definition field_column (f : GehlFields) : Column :=
  {| col_name := field_name f;
     col_type :=
       match f with
       | gender => "data_collection.gender"
       | age => "varchar(64)"
       | mode => "data_collection.mode"
       | posture => "data_collection.posture"
       | activities => "data_collection.activities[]"
       | groups => "data_collection.groups"
       | object => "data_collection.object"
       | location => "geometry NOT NULL"
       | note => "text"
       | creation_date => "timestamptz"
       | last_updated => "timestamptz"
       end |}.

Definition genderLocationColumns : list Column :=
  survey_id_column :: data_point_id_column
    :: map field_column [gender; creation_date; last_updated; location].

Definition allGehlFieldsColumns : list Column :=
  survey_id_column :: data_point_id_column :: map field_column allGehlFieldsArray.

End Provisioner.
Export Provisioner.

(** ** Data point codec *)

Module Codec.

Definition validDataPointProperties : list string :=
  new_Set ["survey_id"; "data_point_id"; "gender"; "age"; "mode"; "posture";
           "activities"; "groups"; "object"; "location"; "creation_date";
           "last_updated"; "note"].

(** The callback of the [map] in [javascriptArrayToPostgresArray], for an
    element [x] of the array [xs]; a nested array recurses. *)
Fixpoint postgresArrayElement (xs : list JsVal) (x : JsVal) {struct x}
    : Result JsVal :=
  match x with
  | JNull => Throw (NullInArray xs)
  | JStr s => Ok (JStr s)
  | JArr ys =>
      arrayElements <- mapM (postgresArrayElement ys) ys ;;
      Ok (JStr ("{" ++ Array_join ", " arrayElements ++ "}"))
  | JObj _ => Ok (JStr (ToString x))
  | JUndefined | JBool _ | JNum _ => Ok x
  end.

Definition javascriptArrayToPostgresArray (xs : list JsVal) : Result string :=
  arrayElements <- mapM (postgresArrayElement xs) xs ;;
  Ok ("{" ++ Array_join ", " arrayElements ++ "}").

Definition wrapInArray (x : JsVal) : list JsVal :=
  match x with
  | JArr xs => xs
  | _ => [x]
  end.

(** [location.type && location.type === 'Point'] *)
Definition is_Point (location : JsVal) : Result bool :=
  t <- get_prop location "type" ;;
  Ok (truthy t && strict_eq_string t "Point").

Definition convertKeyToParamterBinding (index : nat) (key : string) (value : JsVal)
    : Result (nat * string) :=
  if String.eqb key "location" then
    let location := value in
    point <- is_Point location ;;
    if point then
      Ok (index + 1, "ST_GeomFromGeoJSON($" ++ nat_to_string index ++ ")")
    else
      Ok (index + 2,
          "ST_GeomFromText($" ++ nat_to_string index ++ ", $"
            ++ nat_to_string (index + 1) ++ ")")
  else
    Ok (index + 1, "$" ++ nat_to_string index).

Definition processDataPointToValue (key : string) (value : JsVal) : Result JsVal :=
  if String.eqb key "location" then
    let location := value in
    point <- is_Point location ;;
    if point then
      Ok (JSON_stringify location)
    else
      longitude <- get_prop location "longitude" ;;
      latitude <- get_prop location "latitude" ;;
      Ok (JArr [longitude; latitude])
  else if String.eqb key "groups" then
    if strict_eq_string value "single" then Ok (JStr "group_1")
    else if strict_eq_string value "pair" then Ok (JStr "group_2")
    else if strict_eq_string value "group" then Ok (JStr "group_3-7")
    else if strict_eq_string value "crowd" then Ok (JStr "group_8+")
    else Throw (InvalidGroups value)
  else if String.eqb key "age" then
    if strict_eq_string value "child" then Ok (JStr "0-14")
    else if strict_eq_string value "young" then Ok (JStr "15-24")
    else if strict_eq_string value "adult" then Ok (JStr "25-64")
    else if strict_eq_string value "elderly" then Ok (JStr "65+")
    else Throw (InvalidAge value)
  else if String.eqb key "activities" then
    let activities := value in
    let activitesAsArr :=
      match activities with JArr xs => xs | _ => [activities] end in
    s <- javascriptArrayToPostgresArray activitesAsArr ;;
    Ok (JStr s)
  else if Set_has validDataPointProperties key then
    Ok (JStr (ToString value))
  else
    Throw (UnexpectedKey key).

Record Acc : Type := {
  columns : list string;
  values : list JsVal;
  parameterBindings : list string;
  index : nat
}.

Definition processDataPointToPreparedStatement (acc : Acc) (curr : string * JsVal)
    : Result Acc :=
  let '(key, value) := curr in
  let columns' := (columns acc ++ [key])%list in
  r <- convertKeyToParamterBinding (index acc) key value ;;
  let '(index', binding) := r in
  let parameterBindings' := (parameterBindings acc ++ [binding])%list in
  v <- processDataPointToValue key value ;;
  Ok {| columns := columns';
        values := (values acc ++ wrapInArray v)%list;
        parameterBindings := parameterBindings';
        index := index' |}.

(** [Array.prototype.reduce] with a callback that may throw. *)
Fixpoint reduce {A B : Type} (f : B -> A -> Result B) (l : list A) (init : B)
    : Result B :=
  match l with
  | [] => Ok init
  | x :: l' => acc <- f init x ;; reduce f l' acc
  end.

Definition initialAcc : Acc :=
  {| columns := []; values := []; parameterBindings := []; index := 1 |}.

Definition processKeyAndValues (dataPoint : Obj) : Result Acc :=
  let kvs := dataPoint in
  reduce processDataPointToPreparedStatement kvs initialAcc.

Definition deleteNonGehlFields (o : Obj) : Obj :=
  let unwantedKeys :=
    filter (fun x => negb (Set_has allGehlFieldsStrings x) || is_null (obj_get o x))
           (Object_keys o) in
  fold_left obj_delete unwantedKeys o.

Record Insert : Type := { query : string; insert_values : list JsVal }.

Definition indent12 : string := "            ".

Definition insert_statement (acc : Acc) : string :=
  "(" ++ String.concat ", " (columns acc) ++ ") VALUES ("
      ++ String.concat ", " (parameterBindings acc) ++ ")".

Definition upsert_query (acc : Acc) : string :=
  template indent12
    [insert_statement acc;
     "ON CONFLICT(data_point_id)";
     "DO UPDATE SET(" ++ String.concat ", " (columns acc) ++ ") = ("
       ++ String.concat ", " (parameterBindings acc) ++ ")"].

(** The object handed to [processKeyAndValues]: the Gehl fields that are
    not null, then [survey_id] and [data_point_id] set again. *)
Definition dataPointForPostgres (surveyId : string) (dataPoint : Obj) : Obj :=
  let data_point_id := obj_get dataPoint "data_point_id" in
  let o := deleteNonGehlFields dataPoint in
  let o := obj_set o "survey_id" (JStr surveyId) in
  obj_set o "data_point_id" data_point_id.

Definition transformToPostgresInsert (surveyId : string) (dataPoint : Obj)
    : Result Insert :=
  acc <- processKeyAndValues (dataPointForPostgres surveyId dataPoint) ;;
  Ok {| query := upsert_query acc; insert_values := values acc |}.

End Codec.
Export Codec.

(** ** Persistence gateway *)

Module Gateway.

(** What [pool.query] resolves to. *)
Record QueryResult : Type := {
  command : string;
  rowCount : nat;
  rows : list Obj
}.

Definition indent19 : string := "                   ".

Definition tablename_query (surveyId : string) : string :=
  template indent19
    ["SELECT tablename";
     "FROM  data_collection.survey_to_tablename";
     "WHERE survey_id = '" ++ surveyId ++ "'"].

Definition delete_query (tablename dataPointId : JsVal) : string :=
  template indent19
    ["DELETE FROM " ++ ToString tablename;
     "WHERE data_point_id = '" ++ ToString dataPointId ++ "'"].

Definition insert_query (tablename : JsVal) (query : string) : string :=
  template indent19 ["INSERT INTO " ++ ToString tablename; query].

Section Pool.

(** The database behind the pool, and [pool.query(text, values)]: the
    statement runs against the database and the promise resolves to a
    result or rejects. A call without values passes the empty list. *)
Variable DB : Type.
Variable pool_query : DB -> string -> list JsVal -> DB * Result QueryResult.

(** An async function: database in, database and settled promise out. *)
Definition Async (A : Type) : Type := DB -> DB * Result A.

Definition resolve {A : Type} (a : A) : Async A := fun db => (db, Ok a).
Definition reject {A : Type} (e : JsError) : Async A := fun db => (db, Throw e).

Definition await {A B : Type} (p : Async A) (k : A -> Async B) : Async B :=
  fun db =>
    match p db with
    | (db', Ok a) => k a db'
    | (db', Throw e) => (db', Throw e)
    end.

Definition settled {A : Type} (r : Result A) : Async A := fun db => (db, r).

(** The [catch] blocks of this module log and rethrow; the log is not
    part of the model. *)
Definition getTablenameForSurveyId (surveyId : string) : Async JsVal :=
  let query := tablename_query surveyId in
  await (fun db => pool_query db query []) (fun pgRes =>
  if Nat.eqb (rowCount pgRes) 1 then
    match rows pgRes with
    | row :: _ => resolve (obj_get row "tablename")
    | [] => reject (TypeError "tablename")
    end
  else
    reject (NoTablenameFound surveyId)).

Definition deleteDataPoint (surveyId : string) (dataPointId : JsVal)
    : Async QueryResult :=
  await (getTablenameForSurveyId surveyId) (fun tablename =>
  let query := delete_query tablename dataPointId in
  await (fun db => pool_query db query []) (fun res =>
  if negb (Nat.eqb (rowCount res) 1) then
    reject (NoDataPointFound query dataPointId)
  else
    resolve res)).

Definition addDataPointToSurveyNoStudyId (surveyId : string) (dataPoint : Obj)
    : Async QueryResult :=
  await (getTablenameForSurveyId surveyId) (fun tablename =>
  let dataPointWithSurveyId := obj_set dataPoint "survey_id" (JStr surveyId) in
  await (settled (transformToPostgresInsert surveyId dataPointWithSurveyId))
    (fun insert =>
  let query := insert_query tablename (query insert) in
  fun db => pool_query db query (insert_values insert))).

End Pool.

Arguments getTablenameForSurveyId {DB} pool_query surveyId db.
Arguments deleteDataPoint {DB} pool_query surveyId dataPointId db.
Arguments addDataPointToSurveyNoStudyId {DB} pool_query surveyId dataPoint db.

End Gateway.
Export Gateway.

(** ** An in-memory database behind the pool

    One study table holding data point ids, and the survey index. It
    answers the two statements of the delete path and rejects all others;
    it serves to run the gateway on concrete inputs. *)

Module MemoryPool.

Record MemDB : Type := {
  survey_to_tablename : list (string * string);
  table_name : string;
  table_ids : list string
}.

Fixpoint starts_with (p s : string) : bool :=
  match p with
  | EmptyString => true
  | String a p' =>
      match s with
      | EmptyString => false
      | String b s' => Ascii.eqb a b && starts_with p' s'
      end
  end.

Definition delete_prefix (tablename : string) : string :=
  template indent19 ["DELETE FROM " ++ tablename; "WHERE data_point_id = '"].

Definition select_prefix : string :=
  template indent19
    ["SELECT tablename";
     "FROM  data_collection.survey_to_tablename";
     "WHERE survey_id = '"].

Definition select_tablename (db : MemDB) (text : string) : option QueryResult :=
  if starts_with select_prefix text then
    let found :=
      filter (fun st => String.eqb text (tablename_query (fst st)))
             (survey_to_tablename db) in
    Some {| command := "SELECT";
            rowCount := length found;
            rows := map (fun st => [("tablename", JStr (snd st))]) found |}
  else None.

Definition delete_from (db : MemDB) (text : string) : option (MemDB * QueryResult) :=
  if starts_with (delete_prefix (table_name db)) text then
    let hit id := String.eqb text (delete_query (JStr (table_name db)) (JStr id)) in
    Some ({| survey_to_tablename := survey_to_tablename db;
             table_name := table_name db;
             table_ids := filter (fun id => negb (hit id)) (table_ids db) |},
          {| command := "DELETE";
             rowCount := length (filter hit (table_ids db));
             rows := [] |})
  else None.

Definition mem_query (db : MemDB) (text : string) (values : list JsVal)
    : MemDB * Result QueryResult :=
  match select_tablename db text with
  | Some res => (db, Ok res)
  | None =>
      match delete_from db text with
      | Some (db', res) => (db', Ok res)
      | None => (db, Throw (DatabaseError text))
      end
  end.

Definition sample_db : MemDB :=
  {| survey_to_tablename := [("survey-1", "data_collection.study_a1")];
     table_name := "data_collection.study_a1";
     table_ids := ["p1"; "p2"] |}.

End MemoryPool.

(** ** Table names and digits *)

Module Naming.

(** [s.replace(/-/g, '')] *)
Fixpoint remove_hyphens (s : string) : string :=
  match s with
  | EmptyString => ""
  | String c s' =>
      if Ascii.eqb c "-" then remove_hyphens s' else String c (remove_hyphens s')
  end.

Definition studyIdToTablename (studyId : string) : string :=
  "data_collection.study_" ++ remove_hyphens studyId.

(** [d] is a one-character string, or [undefined] for the first character
    of an empty string. *)
Definition digitToString (d : JsVal) : JsVal :=
  if strict_eq_string d "0" then JStr "zero"
  else if strict_eq_string d "1" then JStr "one"
  else if strict_eq_string d "2" then JStr "two"
  else if strict_eq_string d "3" then JStr "three"
  else if strict_eq_string d "4" then JStr "four"
  else if strict_eq_string d "5" then JStr "five"
  else if strict_eq_string d "6" then JStr "six"
  else if strict_eq_string d "7" then JStr "seven"
  else if strict_eq_string d "8" then JStr "eight"
  else if strict_eq_string d "9" then JStr "nine"
  else d.

(** [s.split('-')]: never empty. *)
Fixpoint split_hyphens (s : string) : list string :=
  match s with
  | EmptyString => [""]
  | String c s' =>
      if Ascii.eqb c "-" then "" :: split_hyphens s'
      else match split_hyphens s' with
           | piece :: pieces => String c piece :: pieces
           | [] => [String c ""]
           end
  end.

(** [Array.from(s)]: the characters of the string, each as a string; byte
    by byte here, which gives the same concatenation, no byte of a longer
    character being a digit. *)
Definition Array_from (s : string) : list JsVal :=
  map (fun c => JStr (String c "")) (list_ascii_of_string s).

(** [s[0]]: the first character, as long as it is one code unit (see
    [starts_in_plane]). *)
Definition first_character (s : string) : JsVal :=
  match s with
  | EmptyString => JUndefined
  | String c _ => JStr (String c "")
  end.

(** [acc.concat(x)]: a method of strings only. *)
Definition concat_method (acc x : JsVal) : Result JsVal :=
  match acc with
  | JStr a => Ok (JStr (a ++ ToString x))
  | _ => Throw (TypeError "concat")
  end.

Definition replaceDigits (s : string) : Result JsVal :=
  let asArr := split_hyphens s in
  let lastTwelve := last asArr "" in
  reduce (fun acc curr => concat_method acc (digitToString curr))
         (tl (Array_from lastTwelve))
         (digitToString (first_character lastTwelve)).

End Naming.
Export Naming.

(** ** Studies, surveys and the other data point paths of the gateway *)

Module Studies.

#[local] Arguments await {DB A B} p k db.
#[local] Arguments resolve {DB A} a db.
#[local] Arguments reject {DB A} e db.
#[local] Arguments settled {DB A} r db.

Definition indent35 : string := "                                   ".

(** [map = {}] in a destructuring: the default replaces [undefined] only. *)
Definition default_to (d v : JsVal) : JsVal :=
  match v with
  | JUndefined => d
  | _ => v
  end.

(** The optional [title] and [map] of the study are arguments of their
    own, [undefined] when the study has none. *)
Definition study_metadata_query
    (study : Study) (title studyMap : JsVal) (fields : list GehlFields)
    (studyTablename : string) : string :=
  let studyMap := default_to (JObj []) studyMap in
  template indent35
    ["INSERT INTO data_collection.study(study_id, title, user_id, protocol_version, study_type, table_definition, tablename, map)";
     "VALUES('" ++ studyId study ++ "', '" ++ ToString title ++ "', '"
       ++ userId study ++ "', '" ++ protocolVersion study ++ "',  '"
       ++ type study ++ "', '"
       ++ ToString (JSON_stringify (JArr (map (fun f => JStr (field_name f)) fields)))
       ++ "', '" ++ studyTablename ++ "', '"
       ++ ToString (JSON_stringify studyMap) ++ "')"].

Definition user_insert_query (userId email : string) : string :=
  template indent19
    ["INSERT INTO users(user_id, email)";
     "VALUES('" ++ userId ++ "', '" ++ email ++ "')"].

Definition surveyors_query (userEmail studyId : string) : string :=
  template ""
    ["INSERT INTO data_collection.surveyors";
     "                   (SELECT coalesce";
     "                      ((SELECT pu.user_id FROM public.users pu WHERE pu.email = '"
       ++ userEmail ++ "'),";
     "                      '00000000-0000-0000-0000-000000000000'),";
     "                   '" ++ studyId ++ "')"].

Definition surveyor_query : string :=
  template indent19
    ["SELECT user_id, survey_id";
     "FROM data_collection.survey";
     "WHERE user_id = $1 and survey_id = $2"].

Definition data_points_query (tablename : JsVal) : string :=
  template indent19
    ["SELECT data_point_id, gender, age, mode, posture, activities, groups, object, ST_AsGeoJSON(location)::json as loc, note";
     "FROM " ++ ToString tablename].

Definition location_query (location : Obj) : string :=
  let locationId := obj_get location "locationId" in
  let namePrimary := obj_get location "namePrimary" in
  let geometry := obj_get location "geometry" in
  let country := default_to (JStr "") (obj_get location "country") in
  let city := default_to (JStr "") (obj_get location "city") in
  let subdivision := default_to (JStr "") (obj_get location "subdivision") in
  template indent19
    ["INSERT INTO data_collection.location";
     "(location_id, country, city, name_primary, subdivision, geometry)";
     "VALUES ('" ++ ToString locationId ++ "', '" ++ ToString country ++ "', '"
       ++ ToString city ++ "', '" ++ ToString namePrimary ++ "', '"
       ++ ToString subdivision ++ "', ST_GeomFromGeoJSON('"
       ++ ToString (JSON_stringify geometry) ++ "'))"].

(** The row of [retrieveDataPointsForSurvey]: [loc] is taken out and put
    back as [location]. *)
Definition rename_loc (r : Obj) : Obj :=
  let location := obj_get r "loc" in
  obj_set (obj_delete r "loc") "location" location.

Definition survey_with_location_cte : string :=
  template ""
    ["WITH t (study_id, survey_id, title, time_start, time_stop, representation, method, user_email, location_id) AS (";
     "              VALUES(";
     "                     $1::UUID,";
     "                     $2::UUID,";
     "                     $3::TEXT,";
     "                     $4::TIMESTAMP WITH TIME ZONE,";
     "                     $5::TIMESTAMP WITH TIME ZONE,";
     "                     $6::TEXT,";
     "                     $7::TEXT,";
     "                     $8::TEXT,";
     "                     $9::UUID";
     "              )";
     "            )";
     "            SELECT t.study_id, t.survey_id, t.title, t.time_start, t.time_stop, t.representation, t.method, u.user_id, t.location_id";
     "            FROM  t";
     "            JOIN public.users u";
     "            ON t.user_email = u.email"].

Definition survey_without_location_cte : string :=
  template ""
    ["WITH t (study_id, survey_id, title, time_start, time_stop, representation, method, user_email) AS (";
     "              VALUES(";
     "                     $1::UUID,";
     "                     $2::UUID,";
     "                     $3::TEXT,";
     "                     $4::TIMESTAMP WITH TIME ZONE,";
     "                     $5::TIMESTAMP WITH TIME ZONE,";
     "                     $6::TEXT,";
     "                     $7::TEXT,";
     "                     $8::TEXT";
     "              )";
     "            )";
     "            SELECT t.study_id, t.survey_id, t.title, t.time_start, t.time_stop, t.representation, t.method, u.user_id";
     "            FROM  t";
     "            JOIN public.users u";
     "            ON t.user_email = u.email"].

(** The survey is the object the caller passes; a property it does not
    have is read as [undefined]. *)
Definition joinSurveyWithUserEmailCTE (survey : Obj) : string * list JsVal :=
  let studyId := obj_get survey "studyId" in
  let surveyId := obj_get survey "surveyId" in
  let title := obj_get survey "title" in
  let startDate := obj_get survey "startDate" in
  let endDate := obj_get survey "endDate" in
  let representation := obj_get survey "representation" in
  let method := obj_get survey "method" in
  let userEmail := obj_get survey "userEmail" in
  let locationId := obj_get survey "locationId" in
  if truthy locationId then
    (survey_with_location_cte,
     [studyId; surveyId; title; startDate; endDate; representation; method;
      userEmail; locationId])
  else
    (survey_without_location_cte,
     [studyId; surveyId; title; startDate; endDate; representation; method;
      userEmail]).

(** The statement and the values [createNewSurveyForStudy] hands to the
    pool. *)
Definition new_survey_statement (survey : Obj) : string * list JsVal :=
  let '(query, values) := joinSurveyWithUserEmailCTE survey in
  if truthy (obj_get survey "locationId") then
    (template indent19
       ["INSERT INTO data_collection.survey (study_id, survey_id, title, time_start, time_stop, representation, method, user_id, location_id)";
        query ++ ";"],
     values)
  else
    (template indent19
       ["INSERT INTO data_collection.survey (study_id, survey_id, title, time_start, time_stop, representation, method, user_id)";
        query ++ ";"],
     values).

Section Pool.

Context {DB : Type}.
Variable pool_query : DB -> string -> list JsVal -> DB * Result QueryResult.

(** [error.code === FOREIGN_KEY_VIOLATION], on what the pool rejects
    with. *)
Variable is_foreign_key_violation : JsError -> bool.

(** [try { ... } catch (error) { ... }] around awaited calls. *)
Definition try_catch {A : Type} (body : Async DB A) (handler : JsError -> Async DB A)
    : Async DB A :=
  fun db =>
    match body db with
    | (db', Ok a) => (db', Ok a)
    | (db', Throw error) => handler error db'
    end.

Definition createStudy
    (study : Study) (title studyMap : JsVal) (fields : list GehlFields)
    : Async DB (QueryResult * QueryResult) :=
  let studyTablename := studyIdToTablename (studyId study) in
  await (settled (createNewTableFromGehlFields study studyTablename fields))
    (fun newStudyDataTableQuery =>
  let newStudyMetadataQuery :=
    study_metadata_query study title studyMap fields studyTablename in
  await (fun db => pool_query db newStudyMetadataQuery []) (fun studyResult =>
  await (fun db => pool_query db newStudyDataTableQuery []) (fun newStudyDataTable =>
  resolve (studyResult, newStudyDataTable)))).

(** [userId] is what [uuid.v4()] returns in the call. *)
Definition createUserFromEmail (userId email : string) : Async DB string :=
  let query := user_insert_query userId email in
  await (fun db => pool_query db query []) (fun _ => resolve userId).

(** The result is the pair the source returns as an array; [None] is its
    [null]. [newUserId] is what [uuid.v4()] returns if it is called. *)
Definition giveUserStudyAccess (newUserId userEmail studyId : string)
    : Async DB (QueryResult * option string) :=
  let query := surveyors_query userEmail studyId in
  try_catch
    (await (fun db => pool_query db query []) (fun pgRes => resolve (pgRes, None)))
    (fun error =>
       if is_foreign_key_violation error then
         await (createUserFromEmail newUserId userEmail) (fun newUserId =>
         await (fun db => pool_query db query []) (fun pgRes2 =>
         resolve (pgRes2, Some newUserId)))
       else reject error).

(** The [catch] logs and returns nothing: [None] is the [undefined] the
    call then resolves to. *)
Definition createLocation (location : Obj) : Async DB (option QueryResult) :=
  let query := location_query location in
  try_catch
    (await (fun db => pool_query db query []) (fun res => resolve (Some res)))
    (fun error => resolve None).

Definition createNewSurveyForStudy (survey : Obj) : Async DB QueryResult :=
  let '(query, values) := new_survey_statement survey in
  fun db => pool_query db query values.

Definition checkUserIdIsSurveyor (userId surveyId : string) : Async DB bool :=
  let query := surveyor_query in
  let values := [JStr userId; JStr surveyId] in
  await (fun db => pool_query db query values) (fun res =>
  if negb (String.eqb (command res) "SELECT") && negb (Nat.eqb (rowCount res) 1)
  then resolve false
  else resolve true).

Definition addDataPointToSurveyWithStudyId
    (studyId surveyId : string) (dataPoint : Obj) : Async DB QueryResult :=
  let tablename := studyIdToTablename studyId in
  let dataPointWithSurveyId := obj_set dataPoint "survey_id" (JStr surveyId) in
  await (settled (transformToPostgresInsert surveyId dataPointWithSurveyId))
    (fun insert =>
  let query := insert_query (JStr tablename) (query insert) in
  fun db => pool_query db query (insert_values insert)).

Definition retrieveDataPointsForSurvey (surveyId : string) : Async DB (list Obj) :=
  await (getTablenameForSurveyId pool_query surveyId) (fun tablename =>
  let query := data_points_query tablename in
  await (fun db => pool_query db query []) (fun res =>
  resolve (map rename_loc (rows res)))).

End Pool.

End Studies.
Export Studies.

(** * Predicates of the properties *)

(** ** What the encoder keeps, and what an array holds *)

(** A property survives iff its name is a Gehl field and its value, read
    from the object, is not [null]. *)
Definition kept (o : Obj) (k : string) : bool :=
  Set_has allGehlFieldsStrings k && negb (is_null (obj_get o k)).

(** [contains_null x]: the element [x] is [null], or an array with [null]
    in it at some depth of nested arrays. *)
Fixpoint contains_null (x : JsVal) : bool :=
  match x with
  | JNull => true
  | JArr ys => existsb contains_null ys
  | _ => false
  end.

Section JsVal_array_ind.
Variable P : JsVal -> Prop.
Hypothesis Hatom : forall x, Array_isArray x = false -> P x.
Hypothesis Harr : forall xs, Forall P xs -> P (JArr xs).

(** Induction on the nesting of arrays. *)
Fixpoint JsVal_array_ind (x : JsVal) : P x :=
  match x with
  | JArr xs =>
      Harr xs ((fix all (l : list JsVal) : Forall P l :=
                  match l with
                  | [] => Forall_nil P
                  | y :: l' => Forall_cons y (JsVal_array_ind y) (all l')
                  end) xs)
  | JNull => Hatom JNull eq_refl
  | JUndefined => Hatom JUndefined eq_refl
  | JBool b => Hatom (JBool b) eq_refl
  | JNum t => Hatom (JNum t) eq_refl
  | JStr s => Hatom (JStr s) eq_refl
  | JObj ps => Hatom (JObj ps) eq_refl
  end.
End JsVal_array_ind.

(** ** Placeholders and slots *)

Fixpoint count_char (c : ascii) (s : string) : nat :=
  match s with
  | EmptyString => 0
  | String c' s' => (if Ascii.eqb c' c then 1 else 0) + count_char c s'
  end.

(** The parameter placeholders of a statement text: each is one dollar
    sign followed by its index. *)
Definition placeholders (s : string) : nat := count_char "$" s.

(** The placeholder slots a field takes: two for a location that is not a
    GeoJSON point, one for everything else. *)
Definition slots (key : string) (value : JsVal) : nat :=
  if String.eqb key "location" then
    match is_Point value with
    | Ok true => 1
    | _ => 2
    end
  else 1.

(** Bindings and values in lock-step: the placeholders of the bindings are
    as many as the values, and the index is the next free placeholder. *)
Definition aligned (acc : Acc) : Prop :=
  list_sum (map placeholders (parameterBindings acc)) = length (values acc)
  /\ index acc = S (length (values acc)).

(** ** The produced statement *)

(** The [(columns) VALUES (bindings)] fragment of a column list and a
    binding list. *)
Definition insert_fragment (columnList bindingList : string) : string :=
  "(" ++ columnList ++ ") VALUES (" ++ bindingList ++ ")".

(** The text of the upsert of a column list and a binding list: the
    fragment, then the conflict clause on [data_point_id] with the same two
    lists. *)
Definition upsert_text (columnList bindingList : string) : string :=
  insert_fragment columnList bindingList
    ++ LF ++ indent12 ++ "ON CONFLICT(data_point_id)"
    ++ LF ++ indent12 ++ "DO UPDATE SET(" ++ columnList ++ ") = (" ++ bindingList ++ ")".

(** The statement [r] is the upsert of the columns and of the bindings of
    [acc], with the values of [acc]. *)
Definition written (acc : Acc) (r : Insert) : Prop :=
  query r = upsert_text (String.concat ", " (columns acc))
                        (String.concat ", " (parameterBindings acc))
  /\ insert_values r = values acc.

(** The column [key] is bound to [value]: the binding at the position of
    the column is the one placeholder [$m], and the m-th value, counted
    from one, is [value]. *)
Definition bound (cols binds : list string) (vals : list JsVal)
    (key : string) (value : JsVal) : Prop :=
  exists n m,
    nth_error cols n = Some key
    /\ nth_error binds n = Some ("$" ++ nat_to_string (S m))
    /\ nth_error vals m = Some value.


(** ** Location values *)

Definition nullish (v : JsVal) : bool :=
  match v with JNull | JUndefined => true | _ => false end.

(** The property [k] of a value that is neither [null] nor [undefined]. *)
Definition property (v : JsVal) (k : string) : JsVal :=
  match v with
  | JObj props => obj_get props k
  | _ => JUndefined
  end.

(** The location value has a [type] equal to ['Point']. *)
Definition has_type_Point (location : JsVal) : bool :=
  strict_eq_string (property location "type") "Point".

(** ** Label tables *)

(** The label tables, as the specification gives them. *)
Definition spec_age_labels : list (string * string) :=
  [("child", "0-14"); ("young", "15-24"); ("adult", "25-64"); ("elderly", "65+")].

Definition spec_groups_labels : list (string * string) :=
  [("single", "group_1"); ("pair", "group_2"); ("group", "group_3-7");
   ("crowd", "group_8+")].

Definition label_table (key : string) : option (list (string * string)) :=
  if String.eqb key "age" then Some spec_age_labels
  else if String.eqb key "groups" then Some spec_groups_labels
  else None.

Fixpoint lookup_label (table : list (string * string)) (label : string)
    : option string :=
  match table with
  | [] => None
  | (l, stored) :: table' =>
      if String.eqb label l then Some stored else lookup_label table' label
  end.

(** The stored value of the table for a value: only a string can be one of
    its labels. *)
Definition stored_label (table : list (string * string)) (v : JsVal) : option string :=
  match v with
  | JStr label => lookup_label table label
  | _ => None
  end.

(** The validation error of the field. *)
Definition invalid_label (key : string) (v : JsVal) : JsError :=
  if String.eqb key "age" then InvalidAge v else InvalidGroups v.

(** ** Texts of sets *)

Definition is_comma (c : ascii) : bool := Ascii.eqb c ",".

Fixpoint comma_free (s : string) : bool :=
  match s with
  | EmptyString => true
  | String c s' => negb (is_comma c) && comma_free s'
  end.

(** The pieces of a text between its commas. *)
Fixpoint split_commas (s : string) : list string :=
  match s with
  | EmptyString => [""]
  | String c s' =>
      if is_comma c then "" :: split_commas s'
      else match split_commas s' with
           | piece :: pieces => String c piece :: pieces
           | [] => [String c ""]
           end
  end.

(** ** The survey index of the in-memory database *)

(** What the survey index answers for a survey. *)
Definition lookup_tablename (index : list (string * string)) (surveyId : string)
    : Result JsVal :=
  let found :=
    filter (fun st => String.eqb (tablename_query surveyId) (tablename_query (fst st)))
           index in
  if Nat.eqb (length found) 1 then
    match found with
    | st :: _ => Ok (JStr (snd st))
    | [] => Throw (TypeError "tablename")
    end
  else Throw (NoTablenameFound surveyId).

(** ** Entries that encode *)

(** The entry of a data point encodes: a location that is neither [null]
    nor [undefined], a label of the table for [groups] and [age], no
    [null] in the activities; any other value of any other field. *)
Definition encodable (key : string) (value : JsVal) : bool :=
  if String.eqb key "location" then negb (nullish value)
  else if String.eqb key "groups" then
    match stored_label spec_groups_labels value with Some _ => true | None => false end
  else if String.eqb key "age" then
    match stored_label spec_age_labels value with Some _ => true | None => false end
  else if String.eqb key "activities" then negb (contains_null value)
  else true.

(** The error of an entry that does not encode. *)
Definition entry_error (key : string) (value : JsVal) (e : JsError) : Prop :=
  if String.eqb key "location" then e = TypeError "type"
  else if String.eqb key "groups" then e = InvalidGroups value
  else if String.eqb key "age" then e = InvalidAge value
  else exists xs, e = NullInArray xs.

(** ** Values that print *)

(** The value can be written into a text: it is not an object with a
    property [toString] of its own, nor an array with such an object in it
    at some depth. A property of the data is never a function, so that the
    source, asked for the text of such an object by a template literal, by
    [join] or by [x.toString()], throws a [TypeError]; [ToString] gives it
    the text of a plain object. The properties that depend on that text
    being produced assume [interpolable]. *)
Fixpoint interpolable (v : JsVal) : bool :=
  match v with
  | JObj props => negb (existsb (String.eqb "toString") (map fst props))
  | JArr xs => forallb interpolable xs
  | _ => true
  end.

(** The value of the field is one the encoder can write: the location is
    never written into a text. *)
Definition prints (key : string) (value : JsVal) : bool :=
  if String.eqb key "location" then true else interpolable value.

(** ** Statements issued to the pool *)

Definition Statement : Type := string * list JsVal.

(** A pool that also records, in order, the statements it is given. *)
Definition logged {DB : Type}
    (pool_query : DB -> string -> list JsVal -> DB * Result QueryResult)
    (s : list Statement * DB) (text : string) (values : list JsVal)
    : (list Statement * DB) * Result QueryResult :=
  let (db', r) := pool_query (snd s) text values in
  ((fst s ++ [(text, values)])%list, db', r).

(** The statements recorded by a run. *)
Definition issued {DB A : Type} (run : (list Statement * DB) * Result A)
    : list Statement :=
  fst (fst run).

(** ** Digits *)

Definition is_digit (c : ascii) : bool :=
  Nat.leb 48 (nat_of_ascii c) && Nat.leb (nat_of_ascii c) 57.

Fixpoint has_digit (s : string) : bool :=
  match s with
  | EmptyString => false
  | String c s' => is_digit c || has_digit s'
  end.

(** The word of a digit, or the character itself. *)
Definition digit_word (c : ascii) : string :=
  ToString (digitToString (JStr (String c ""))).

Fixpoint spell_out (s : string) : string :=
  match s with
  | EmptyString => ""
  | String c s' => digit_word c ++ spell_out s'
  end.

(** The text, read as UTF-8, does not start with a character outside the
    Basic Multilingual Plane, whose first byte is 240 or more: such a
    character is two code units for the source's [lastTwelve[0]], and one
    element for [Array.from]. *)
Definition starts_in_plane (s : string) : bool :=
  match s with
  | EmptyString => true
  | String c _ => Nat.ltb (nat_of_ascii c) 240
  end.

(** ** Listed rows and bound values *)

(** What [rename_loc] does to a row. *)
Definition listed_as (row out : Obj) : Prop :=
  obj_get out "location" = obj_get row "loc"
  /\ ~ In "loc" (Object_keys out)
  /\ forall k, k <> "loc" -> k <> "location" -> obj_get out k = obj_get row k.

(** A bound value of a data point: a text, or the longitude or latitude
    of a location of the data point that is not a GeoJSON point. *)
Definition text_or_coordinate (dataPoint : Obj) (v : JsVal) : Prop :=
  (exists s, v = JStr s)
  \/ exists loc,
       In ("location", loc) dataPoint
       /\ has_type_Point loc = false
       /\ (v = property loc "longitude" \/ v = property loc "latitude").

(** * Sample data *)

Definition sample_point : Obj :=
  [("gender", JStr "female");
   ("location", JObj [("longitude", JNum "-79.34"); ("latitude", JNum "43.7")]);
   ("age", JStr "adult");
   ("activities", JArr [JStr "conversing"; JStr "consuming"]);
   ("data_point_id", JStr "p1")].

Definition sample_acc : Acc :=
  {| columns := ["gender"; "location"; "age"; "activities"; "survey_id";
                 "data_point_id"];
     values := [JStr "female"; JNum "-79.34"; JNum "43.7"; JStr "25-64";
                JStr "{conversing, consuming}"; JStr "survey-1"; JStr "p1"];
     parameterBindings := ["$1"; "ST_GeomFromText($2, $3)"; "$4"; "$5"; "$6"; "$7"];
     index := 8 |}.

Definition sample_insert : Insert :=
  {| query := upsert_query sample_acc; insert_values := values sample_acc |}.

Definition point_with_unknown_key : Obj :=
  [("gender", JStr "male"); ("favourite_colour", JStr "blue");
   ("data_point_id", JStr "p1")].

Definition acc_without_unknown_key : Acc :=
  {| columns := ["gender"; "survey_id"; "data_point_id"];
     values := [JStr "male"; JStr "survey-1"; JStr "p1"];
     parameterBindings := ["$1"; "$2"; "$3"];
     index := 4 |}.

Definition point_with_null_age : Obj :=
  [("gender", JStr "male"); ("age", JNull); ("data_point_id", JStr "p1")].

Definition point_with_undefined_gender : Obj :=
  [("gender", JUndefined); ("data_point_id", JStr "p1")].

Definition acc_with_undefined_gender : Acc :=
  {| columns := ["gender"; "survey_id"; "data_point_id"];
     values := [JStr "undefined"; JStr "survey-1"; JStr "p1"];
     parameterBindings := ["$1"; "$2"; "$3"];
     index := 4 |}.

Definition geojson_point : JsVal :=
  JObj [("type", JStr "Point"); ("coordinates", JArr [JNum "-79.34"; JNum "43.7"])].

Definition point_with_teen : Obj :=
  [("gender", JStr "male"); ("age", JStr "teen"); ("data_point_id", JStr "p1")].

Definition point_with_nested_null : Obj :=
  [("activities", JArr [JStr "conversing"; JArr [JStr "consuming"; JArr [JNull]]]);
   ("data_point_id", JStr "p1")].

Definition point_with_child : Obj :=
  [("age", JStr "child"); ("data_point_id", JStr "p1")].

Definition acc_with_child : Acc :=
  {| columns := ["age"; "survey_id"; "data_point_id"];
     values := [JStr "0-14"; JStr "survey-1"; JStr "p1"];
     parameterBindings := ["$1"; "$2"; "$3"];
     index := 4 |}.

Definition insert_with_child : Insert :=
  {| query := upsert_query acc_with_child; insert_values := values acc_with_child |}.


Import MemoryPool.

Definition db_without_p1 : MemDB :=
  {| survey_to_tablename := survey_to_tablename sample_db;
     table_name := table_name sample_db;
     table_ids := ["p2"] |}.

Definition sample_study : Study :=
  {| studyId := "11111111-1111-1111-1111-111111111111";
     userId := "7566b7ca-0372-46c6-9d2c-0e9fb38bebfb";
     type := "activity";
     protocolVersion := "1.0" |}.

Definition point_with_two_faults : Obj :=
  [("gender", JStr "male"); ("note", JNull); ("age", JStr "teen");
   ("groups", JStr "mob"); ("data_point_id", JStr "p1")].

Definition point_without_id : Obj := [("gender", JStr "female")].

(** A database of users: granting access is rejected with a foreign key
    violation, code 23503, as long as there is no user. *)
Definition access_pool (users : list string) (text : string) (values : list JsVal)
    : list string * Result QueryResult :=
  if starts_with "INSERT INTO users" text then
    ((users ++ [text])%list, Ok {| command := "INSERT"; rowCount := 1; rows := [] |})
  else if starts_with "INSERT INTO data_collection.surveyors" text then
    match users with
    | [] => (users, Throw (DatabaseError "23503"))
    | _ => (users, Ok {| command := "INSERT"; rowCount := 1; rows := [] |})
    end
  else (users, Throw (DatabaseError text)).

Definition code_23503 (error : JsError) : bool :=
  match error with
  | DatabaseError code => String.eqb code "23503"
  | _ => false
  end.

(** A pool that answers every statement as a SELECT without rows. *)
Definition no_rows_pool (db : unit) (text : string) (values : list JsVal)
    : unit * Result QueryResult :=
  (db, Ok {| command := "SELECT"; rowCount := 0; rows := [] |}).

(** A database of the rows of one study table, behind the survey index of
    [survey-1]. *)
Definition listing_pool (table : list Obj) (text : string) (values : list JsVal)
    : list Obj * Result QueryResult :=
  if String.eqb text (tablename_query "survey-1") then
    (table, Ok {| command := "SELECT"; rowCount := 1;
                  rows := [[("tablename", JStr "data_collection.study_a1")]] |})
  else if String.eqb text (data_points_query (JStr "data_collection.study_a1")) then
    (table, Ok {| command := "SELECT"; rowCount := length table; rows := table |})
  else (table, Throw (DatabaseError text)).

Definition stored_rows : list Obj :=
  [[("data_point_id", JStr "p1"); ("gender", JStr "female");
    ("loc", JObj [("type", JStr "Point");
                  ("coordinates", JArr [JNum "-79.34"; JNum "43.7"])]);
    ("note", JNull)]].

(** * Properties *)

(** ** The built-ins, on samples *)

Example ToString_nested :
  ToString (JArr [JNum "1"; JNull; JArr [JStr "a"; JUndefined]; JObj []])
  = "1,,a,,[object Object]".
Proof. reflexivity. Qed.

Example JSON_stringify_point :
  JSON_stringify
    (JObj [("type", JStr "Point"); ("coordinates", JArr [JNum "-79.3"; JNum "43.7"])])
  = JStr ("{" ++ String quote_char "type" ++ String quote_char ":"
          ++ String quote_char "Point" ++ String quote_char ","
          ++ String quote_char "coordinates" ++ String quote_char ":[-79.3,43.7]}").
Proof. reflexivity. Qed.

(** ** Results and folds *)

Lemma is_Throw_Throw {A : Type} (e : JsError) : is_Throw (@Throw A e) = true.
Proof. reflexivity. Qed.

Lemma is_Throw_spec {A : Type} (r : Result A) :
  is_Throw r = true <-> exists e, r = Throw e.
Proof.
  destruct r as [a | e]; cbn; split.
  - discriminate.
  - intros [e He]; discriminate.
  - intros _; now exists e.
  - reflexivity.
Qed.

Lemma bind_Ok_inv {A B : Type} (r : Result A) (k : A -> Result B) (b : B) :
  bind r k = Ok b -> exists a, r = Ok a /\ k a = Ok b.
Proof. destruct r as [a | e]; cbn; [eauto | discriminate]. Qed.

Lemma bind_Throw_inv {A B : Type} (r : Result A) (k : A -> Result B) (e : JsError) :
  bind r k = Throw e -> r = Throw e \/ exists a, r = Ok a /\ k a = Throw e.
Proof. destruct r as [a | e']; cbn; [eauto | intros [= ->]; now left]. Qed.

(** A fold throws as soon as one of its elements makes the callback throw
    whatever the accumulator is. *)
Lemma reduce_throws {A B : Type} (f : B -> A -> Result B) (x : A) :
  (forall acc, is_Throw (f acc x) = true) ->
  forall l init, In x l -> is_Throw (reduce f l init) = true.
Proof.
  intros Hx l; induction l as [| a l IH]; intros init Hin; [destruct Hin |].
  cbn [reduce]. destruct (f init a) as [acc | e] eqn:Hf; cbn; [| reflexivity].
  destruct Hin as [-> | Hin].
  - specialize (Hx init). rewrite Hf in Hx. discriminate.
  - now apply IH.
Qed.

(** The error of a fold is the error of one call of the callback. *)
Lemma reduce_Throw_inv {A B : Type} (f : B -> A -> Result B) (e : JsError) :
  forall l init, reduce f l init = Throw e ->
  exists acc x, In x l /\ f acc x = Throw e.
Proof.
  induction l as [| a l IH]; intros init H; cbn in H; [discriminate |].
  destruct (f init a) as [acc | e'] eqn:Hf; cbn in H.
  - destruct (IH _ H) as (acc' & x & Hin & Hx). exists acc', x. split; [now right | easy].
  - injection H as ->. exists init, a. split; [now left | easy].
Qed.

Lemma reduce_app {A B : Type} (f : B -> A -> Result B) (l1 l2 : list A) (init : B) :
  reduce f (l1 ++ l2) init = bind (reduce f l1 init) (reduce f l2).
Proof.
  revert init. induction l1 as [| x l1 IH]; intros init; [reflexivity |].
  cbn [app reduce]. destruct (f init x); cbn [bind]; [apply IH | reflexivity].
Qed.

(** ** Objects *)

Lemma obj_get_delete_ne (o : Obj) (k k' : string) :
  k <> k' -> obj_get (obj_delete o k) k' = obj_get o k'.
Proof.
  intros Hne. unfold obj_delete.
  induction o as [| [k0 v0] o IH]; [reflexivity |].
  cbn. destruct (String.eqb_spec k0 k) as [-> | Hk]; cbn.
  - destruct (String.eqb_spec k k'); [contradiction | exact IH].
  - now rewrite IH.
Qed.

Lemma obj_get_In (o : Obj) (k : string) :
  In k (Object_keys o) -> In (k, obj_get o k) o.
Proof.
  induction o as [| [k0 v0] o IH]; cbn; [easy |].
  intros H. destruct (String.eqb_spec k0 k) as [-> | Hne]; [now left |].
  right. apply IH. destruct H; [contradiction | assumption].
Qed.

Lemma obj_get_present (o : Obj) (k : string) :
  obj_get o k <> JUndefined -> In k (Object_keys o).
Proof.
  induction o as [| [k0 v0] o IH]; cbn; [congruence |].
  destruct (String.eqb_spec k0 k) as [-> | Hne]; [now left | right; auto].
Qed.

Lemma Object_keys_set (o : Obj) (k : string) (v : JsVal) (k' : string) :
  In k' (Object_keys (obj_set o k v)) <-> In k' (Object_keys o) \/ k' = k.
Proof.
  induction o as [| [k0 v0] o IH]; cbn.
  - intuition congruence.
  - destruct (String.eqb_spec k0 k) as [-> | Hne]; cbn.
    + intuition congruence.
    + rewrite IH. intuition.
Qed.

Lemma In_obj_set_ne (o : Obj) (k : string) (v : JsVal) (p : string * JsVal) :
  fst p <> k -> In p o -> In p (obj_set o k v).
Proof.
  intros Hne. induction o as [| [k0 v0] o IH]; cbn; [easy |].
  intros [<- | Hin].
  - cbn in Hne. destruct (String.eqb_spec k0 k); [contradiction | now left].
  - destruct (String.eqb k0 k); right; auto.
Qed.

Lemma Set_has_In (s : list string) (x : string) :
  Set_has s x = true <-> In x s.
Proof.
  unfold Set_has. rewrite existsb_exists. split.
  - intros (y & Hin & Heq). apply String.eqb_eq in Heq. now subst.
  - intros Hin. exists x. split; [assumption | apply String.eqb_refl].
Qed.

(** ** What [deleteNonGehlFields] keeps *)

Lemma filter_filter_andb {A : Type} (P Q : A -> bool) (l : list A) :
  filter P (filter Q l) = filter (fun a => Q a && P a) l.
Proof.
  induction l as [| a l IH]; [reflexivity |].
  cbn. destruct (Q a); cbn; [destruct (P a) |]; now rewrite IH.
Qed.

Lemma fold_left_obj_delete (ks : list string) (o : Obj) :
  fold_left obj_delete ks o
  = filter (fun p => negb (existsb (String.eqb (fst p)) ks)) o.
Proof.
  revert o. induction ks as [| k ks IH]; intros o; cbn [fold_left existsb].
  - cbn. induction o as [| p o IHo]; [reflexivity | cbn; now rewrite <- IHo].
  - rewrite IH. unfold obj_delete. rewrite filter_filter_andb.
    apply filter_ext. intros p. now rewrite negb_orb.
Qed.

Lemma existsb_eqb_filter (P : string -> bool) (k : string) (ks : list string) :
  In k ks -> existsb (String.eqb k) (filter P ks) = P k.
Proof.
  intros Hin. destruct (P k) eqn:HP.
  - apply existsb_exists. exists k. split; [| apply String.eqb_refl].
    apply filter_In. now split.
  - apply not_true_is_false. intros H. apply existsb_exists in H.
    destruct H as (x & Hx & Heq). apply String.eqb_eq in Heq. subst x.
    apply filter_In in Hx. destruct Hx as [_ Hx]. congruence.
Qed.

Lemma deleteNonGehlFields_filter (o : Obj) :
  deleteNonGehlFields o = filter (fun p => kept o (fst p)) o.
Proof.
  unfold deleteNonGehlFields. rewrite fold_left_obj_delete.
  apply filter_ext_in. intros p Hin.
  rewrite existsb_eqb_filter by (unfold Object_keys; now apply in_map).
  unfold kept. now rewrite negb_orb, negb_involutive.
Qed.

Lemma deleteNonGehlFields_keys (o : Obj) (k : string) :
  In k (Object_keys (deleteNonGehlFields o)) -> kept o k = true.
Proof.
  rewrite deleteNonGehlFields_filter. unfold Object_keys.
  intros H. apply in_map_iff in H. destruct H as ([k' v] & <- & Hin).
  apply filter_In in Hin. now destruct Hin.
Qed.

Lemma deleteNonGehlFields_In (o : Obj) (k : string) :
  In k (Object_keys o) -> kept o k = true ->
  In (k, obj_get o k) (deleteNonGehlFields o).
Proof.
  intros Hin Hk. rewrite deleteNonGehlFields_filter.
  apply filter_In. split; [now apply obj_get_In | exact Hk].
Qed.

(** A key that is not a Gehl field, or whose value is [null], leaves no
    trace: the object handed to the encoder is the one obtained from the
    data point without that key. *)
Lemma deleteNonGehlFields_dropped (o : Obj) (k : string) :
  kept o k = false ->
  deleteNonGehlFields o = deleteNonGehlFields (obj_delete o k).
Proof.
  intros Hk. rewrite !deleteNonGehlFields_filter.
  unfold obj_delete at 2. rewrite filter_filter_andb.
  apply filter_ext. intros [k' v]. cbn [fst].
  destruct (String.eqb_spec k' k) as [-> | Hne]; cbn [negb andb].
  - exact Hk.
  - unfold kept. rewrite obj_get_delete_ne by congruence. reflexivity.
Qed.

Lemma dataPointForPostgres_dropped (surveyId : string) (o : Obj) (k : string) :
  kept o k = false -> k <> "data_point_id" ->
  dataPointForPostgres surveyId o = dataPointForPostgres surveyId (obj_delete o k).
Proof.
  intros Hk Hne. unfold dataPointForPostgres.
  rewrite obj_get_delete_ne by assumption.
  now rewrite <- deleteNonGehlFields_dropped.
Qed.

Lemma dataPointForPostgres_keys (surveyId : string) (o : Obj) (k : string) :
  In k (Object_keys (dataPointForPostgres surveyId o)) ->
  kept o k = true \/ k = "survey_id" \/ k = "data_point_id".
Proof.
  unfold dataPointForPostgres. rewrite !Object_keys_set.
  intros [[H | H] | H]; auto using deleteNonGehlFields_keys.
Qed.

Lemma dataPointForPostgres_valid (surveyId : string) (o : Obj) (k : string) :
  In k (Object_keys (dataPointForPostgres surveyId o)) ->
  Set_has validDataPointProperties k = true.
Proof.
  intros H. apply dataPointForPostgres_keys in H.
  destruct H as [H | [-> | ->]]; [| reflexivity | reflexivity].
  unfold kept in H. apply andb_prop in H. destruct H as [H _].
  apply Set_has_In in H. apply Set_has_In.
  unfold allGehlFieldsStrings in H. cbn in H. cbn.
  intuition.
Qed.

Lemma dataPointForPostgres_In (surveyId : string) (o : Obj) (k : string) :
  In k (Object_keys o) -> kept o k = true ->
  In (k, obj_get o k) (dataPointForPostgres surveyId o).
Proof.
  intros Hin Hk. unfold dataPointForPostgres.
  assert (Hg : Set_has allGehlFieldsStrings k = true)
    by (unfold kept in Hk; now apply andb_prop in Hk).
  apply In_obj_set_ne; [cbn; intros -> ; discriminate |].
  apply In_obj_set_ne; [cbn; intros -> ; discriminate |].
  now apply deleteNonGehlFields_In.
Qed.

(** ** Array literals *)

Lemma is_Ok_bind_Ok {A B : Type} (r : Result A) (g : A -> B) :
  is_Ok (bind r (fun a => Ok (g a))) = is_Ok r.
Proof. now destruct r. Qed.

Lemma is_Ok_mapM {A B : Type} (f : A -> Result B) (l : list A) :
  is_Ok (mapM f l) = forallb (fun x => is_Ok (f x)) l.
Proof.
  induction l as [| x l IH]; [reflexivity |].
  cbn. destruct (f x); cbn; [| reflexivity].
  rewrite <- IH. now destruct (mapM f l).
Qed.

Lemma mapM_Throw_inv {A B : Type} (f : A -> Result B) (l : list A) (e : JsError) :
  mapM f l = Throw e -> exists x, In x l /\ f x = Throw e.
Proof.
  induction l as [| x l IH]; cbn; [discriminate |].
  destruct (f x) as [y | e'] eqn:Hf; cbn.
  - destruct (mapM f l) as [ys | e'']; cbn; [discriminate |].
    intros [= ->]. destruct IH as (x' & Hin & Hx'); [reflexivity |].
    exists x'. split; [now right | assumption].
  - intros [= ->]. exists x. split; [now left | assumption].
Qed.

Lemma mapM_length {A B : Type} (f : A -> Result B) (l : list A) (ys : list B) :
  mapM f l = Ok ys -> length ys = length l.
Proof.
  revert ys. induction l as [| x l IH]; cbn; intros ys.
  - now intros [= <-].
  - destruct (f x); cbn; [| discriminate].
    destruct (mapM f l) as [ys' |]; cbn; [| discriminate].
    intros [= <-]. cbn. f_equal. now apply IH.
Qed.

(** An element converts iff it holds no [null]. *)
Lemma postgresArrayElement_is_Ok (x : JsVal) :
  forall xs, is_Ok (postgresArrayElement xs x) = negb (contains_null x).
Proof.
  induction x as [x Hx | ys IH] using JsVal_array_ind; intros xs.
  - destruct x; try reflexivity. discriminate.
  - cbn [postgresArrayElement contains_null].
    rewrite is_Ok_bind_Ok, is_Ok_mapM.
    generalize ys at 1. intros ctx.
    induction IH as [| y l Hy _ IHl]; [reflexivity |].
    cbn [forallb existsb]. rewrite Hy, IHl. now rewrite negb_orb.
Qed.

(** The only error of the conversion is the one for [null]. *)
Lemma postgresArrayElement_Throw_inv (x : JsVal) :
  forall xs e, postgresArrayElement xs x = Throw e -> exists ys, e = NullInArray ys.
Proof.
  induction x as [x Hx | ys IH] using JsVal_array_ind; intros xs e.
  - destruct x; cbn; try discriminate.
    intros [= <-]. now exists xs.
  - cbn [postgresArrayElement]. intros H.
    apply bind_Throw_inv in H. destruct H as [H | (a & _ & H)]; [| discriminate].
    apply mapM_Throw_inv in H. destruct H as (y & Hin & Hy).
    rewrite Forall_forall in IH. exact (IH y Hin ys e Hy).
Qed.

Lemma javascriptArrayToPostgresArray_is_Ok (xs : list JsVal) :
  is_Ok (javascriptArrayToPostgresArray xs) = negb (existsb contains_null xs).
Proof.
  change (javascriptArrayToPostgresArray xs)
    with (bind (mapM (postgresArrayElement xs) xs)
               (fun es => Ok ("{" ++ Array_join ", " es ++ "}"))).
  rewrite is_Ok_bind_Ok.
  pose proof (postgresArrayElement_is_Ok (JArr xs) []) as H.
  cbn [postgresArrayElement contains_null] in H.
  now rewrite is_Ok_bind_Ok in H.
Qed.

Lemma javascriptArrayToPostgresArray_Throw_inv (xs : list JsVal) (e : JsError) :
  javascriptArrayToPostgresArray xs = Throw e -> exists ys, e = NullInArray ys.
Proof.
  unfold javascriptArrayToPostgresArray. intros H.
  apply bind_Throw_inv in H. destruct H as [H | (a & _ & H)]; [| discriminate].
  apply mapM_Throw_inv in H. destruct H as (y & _ & Hy).
  eapply postgresArrayElement_Throw_inv, Hy.
Qed.

Example javascriptArrayToPostgresArray_nested :
  javascriptArrayToPostgresArray
    [JStr "commercial"; JArr [JStr "consuming"; JNum "3"]; JBool true]
  = Ok "{commercial, {consuming, 3}, true}".
Proof. reflexivity. Qed.

(** ** Placeholders *)

Lemma placeholders_app (s t : string) :
  placeholders (s ++ t) = placeholders s + placeholders t.
Proof.
  unfold placeholders. induction s as [| c s IH]; [reflexivity |].
  cbn. rewrite IH. lia.
Qed.


Lemma placeholders_string_of_uint (d : Decimal.uint) :
  placeholders (NilEmpty.string_of_uint d) = 0.
Proof. induction d; cbn; auto. Qed.

Lemma placeholders_nat_to_string (n : nat) : placeholders (nat_to_string n) = 0.
Proof.
  unfold nat_to_string, NilZero.string_of_uint.
  destruct (Nat.to_uint n); try apply placeholders_string_of_uint; reflexivity.
Qed.

(** ** One step of the encoder *)

Lemma JSON_stringify_wrap (x : JsVal) : wrapInArray (JSON_stringify x) = [JSON_stringify x].
Proof. unfold JSON_stringify. now destruct (SerializeJSONProperty x). Qed.

Lemma processDataPointToValue_string (key : string) (value v : JsVal) :
  key <> "location" -> processDataPointToValue key value = Ok v ->
  exists s, v = JStr s.
Proof.
  intros Hne. unfold processDataPointToValue.
  destruct (String.eqb_spec key "location"); [contradiction |].
  repeat match goal with
         | |- (if ?b then _ else _) = _ -> _ => destruct b
         | |- Ok _ = Ok _ -> _ => intros [= <-]; eauto
         | |- Throw _ = Ok _ -> _ => discriminate
         end.
  intros H. apply bind_Ok_inv in H. destruct H as (s & _ & [= <-]). eauto.
Qed.

Lemma convertKeyToParamterBinding_plain (index : nat) (key : string) (value : JsVal) :
  key <> "location" ->
  convertKeyToParamterBinding index key value
  = Ok (index + 1, "$" ++ nat_to_string index).
Proof.
  intros Hne. unfold convertKeyToParamterBinding.
  now destruct (String.eqb_spec key "location").
Qed.

(** A step appends the key to the columns, one binding to the bindings and
    as many values as the binding has placeholders, and advances the index
    by that number. *)
Lemma processDataPointToPreparedStatement_Ok
    (acc acc' : Acc) (key : string) (value : JsVal) :
  processDataPointToPreparedStatement acc (key, value) = Ok acc' ->
  exists binding vs,
    columns acc' = (columns acc ++ [key])%list
    /\ parameterBindings acc' = (parameterBindings acc ++ [binding])%list
    /\ values acc' = (values acc ++ vs)%list
    /\ index acc' = index acc + length vs
    /\ placeholders binding = length vs
    /\ length vs = slots key value.
Proof.
  unfold processDataPointToPreparedStatement, slots.
  destruct (String.eqb_spec key "location") as [-> | Hne].
  - unfold convertKeyToParamterBinding, processDataPointToValue. cbn [String.eqb Ascii.eqb Bool.eqb].
    destruct (is_Point value) as [[|] | e] eqn:Hp; cbn [bind]; [| | discriminate].
    + intros [= <-]. cbn [columns parameterBindings values index].
      exists ("ST_GeomFromGeoJSON($" ++ nat_to_string (index acc) ++ ")"),
             [JSON_stringify value].
      rewrite JSON_stringify_wrap.
      repeat split.
      change (placeholders ("ST_GeomFromGeoJSON($" ++ nat_to_string (index acc) ++ ")"))
        with (S (placeholders (nat_to_string (index acc) ++ ")"))).
      now rewrite placeholders_app, placeholders_nat_to_string.
    + destruct (get_prop value "longitude") as [lon | e1]; cbn [bind]; [| discriminate].
      destruct (get_prop value "latitude") as [lat | e2]; cbn [bind]; [| discriminate].
      intros [= <-]. cbn [columns parameterBindings values index wrapInArray].
      exists ("ST_GeomFromText($" ++ nat_to_string (index acc) ++ ", $"
                ++ nat_to_string (index acc + 1) ++ ")"),
             [lon; lat].
      repeat split.
      change (placeholders ("ST_GeomFromText($" ++ nat_to_string (index acc) ++ ", $"
                              ++ nat_to_string (index acc + 1) ++ ")"))
        with (S (placeholders (nat_to_string (index acc) ++ ", $"
                                 ++ nat_to_string (index acc + 1) ++ ")"))).
      rewrite placeholders_app, placeholders_nat_to_string.
      change (placeholders (", $" ++ nat_to_string (index acc + 1) ++ ")"))
        with (S (placeholders (nat_to_string (index acc + 1) ++ ")"))).
      now rewrite placeholders_app, placeholders_nat_to_string.
  - rewrite convertKeyToParamterBinding_plain by assumption. cbn [bind].
    destruct (processDataPointToValue key value) as [v |] eqn:Hv; cbn [bind];
      [| discriminate].
    destruct (processDataPointToValue_string _ _ _ Hne Hv) as [s ->].
    intros [= <-]. cbn [columns parameterBindings values index wrapInArray].
    exists ("$" ++ nat_to_string (index acc)), [JStr s].
    repeat split.
    change (placeholders ("$" ++ nat_to_string (index acc)))
      with (S (placeholders (nat_to_string (index acc)))).
    now rewrite placeholders_nat_to_string.
Qed.

(** ** The whole fold *)

Lemma reduce_invariant {A B : Type} (f : B -> A -> Result B) (P : B -> Prop) :
  (forall acc x acc', P acc -> f acc x = Ok acc' -> P acc') ->
  forall l init final, P init -> reduce f l init = Ok final -> P final.
Proof.
  intros Hstep l. induction l as [| x l IH]; intros init final Hinit H; cbn in H.
  - now injection H as <-.
  - destruct (f init x) as [acc |] eqn:Hf; cbn in H; [| discriminate].
    eapply IH; [eapply Hstep; eassumption | exact H].
Qed.

Lemma aligned_initialAcc : aligned initialAcc.
Proof. now split. Qed.

Lemma aligned_step (acc : Acc) (curr : string * JsVal) (acc' : Acc) :
  aligned acc -> processDataPointToPreparedStatement acc curr = Ok acc' ->
  aligned acc'.
Proof.
  intros [Hp Hi] H. destruct curr as [key value].
  apply processDataPointToPreparedStatement_Ok in H.
  destruct H as (binding & vs & _ & Hb & Hv & Hidx & Hpl & _).
  unfold aligned. rewrite Hb, Hv, Hidx, map_app, list_sum_app, !length_app.
  cbn [map list_sum fold_right]. split; lia.
Qed.

Lemma reduce_columns (l : Obj) :
  forall init final,
    reduce processDataPointToPreparedStatement l init = Ok final ->
    columns final = (columns init ++ Object_keys l)%list
    /\ length (parameterBindings final) = length (parameterBindings init) + length l
    /\ length (values final)
       = length (values init) + list_sum (map (fun p => slots (fst p) (snd p)) l).
Proof.
  induction l as [| [key value] l IH]; intros init final H; cbn [reduce] in H.
  - injection H as <-. cbn. rewrite app_nil_r. repeat split; lia.
  - destruct (processDataPointToPreparedStatement init (key, value)) as [acc |] eqn:Hs;
      cbn [bind] in H; [| discriminate].
    apply IH in H. destruct H as (Hc & Hb & Hv).
    apply processDataPointToPreparedStatement_Ok in Hs.
    destruct Hs as (binding & vs & Hc' & Hb' & Hv' & _ & _ & Hslots).
    rewrite Hc, Hb, Hv, Hc', Hb', Hv', !length_app, <- app_assoc.
    cbn. unfold list_sum. repeat split; lia.
Qed.

Lemma processKeyAndValues_Ok (o : Obj) (acc : Acc) :
  processKeyAndValues o = Ok acc ->
  columns acc = Object_keys o
  /\ length (parameterBindings acc) = length (columns acc)
  /\ length (values acc) = list_sum (map (fun p => slots (fst p) (snd p)) o)
  /\ aligned acc.
Proof.
  intros H. unfold processKeyAndValues in H.
  pose proof (reduce_invariant _ aligned aligned_step _ _ _ aligned_initialAcc H) as Ha.
  apply reduce_columns in H. destruct H as (Hc & Hb & Hv). cbn in Hc, Hb, Hv.
  rewrite Hc, Hb. unfold Object_keys. rewrite length_map. auto.
Qed.

Lemma transformToPostgresInsert_Ok (surveyId : string) (dataPoint : Obj) (r : Insert) :
  transformToPostgresInsert surveyId dataPoint = Ok r ->
  exists acc,
    processKeyAndValues (dataPointForPostgres surveyId dataPoint) = Ok acc
    /\ query r = upsert_query acc /\ insert_values r = values acc.
Proof.
  unfold transformToPostgresInsert. intros H.
  apply bind_Ok_inv in H. destruct H as (acc & Hacc & [= <-]). eauto.
Qed.



Lemma upsert_query_text (acc : Acc) :
  upsert_query acc
  = upsert_text (String.concat ", " (columns acc))
                (String.concat ", " (parameterBindings acc)).
Proof. reflexivity. Qed.

Lemma transformToPostgresInsert_written
    (surveyId : string) (dataPoint : Obj) (r : Insert) :
  transformToPostgresInsert surveyId dataPoint = Ok r ->
  exists acc,
    processKeyAndValues (dataPointForPostgres surveyId dataPoint) = Ok acc
    /\ written acc r.
Proof.
  intros H. apply transformToPostgresInsert_Ok in H.
  destruct H as (acc & Hacc & Hquery & Hvalues). exists acc.
  split; [exact Hacc |]. split; [| exact Hvalues].
  now rewrite Hquery, upsert_query_text.
Qed.



(** What the fold has written stays where it is: the steps that follow
    append to the three lists. *)
Lemma reduce_extends (l : Obj) :
  forall init final,
    reduce processDataPointToPreparedStatement l init = Ok final ->
    exists cs bs vs,
      columns final = (columns init ++ cs)%list
      /\ parameterBindings final = (parameterBindings init ++ bs)%list
      /\ values final = (values init ++ vs)%list.
Proof.
  induction l as [| [key value] l IH]; intros init final H; cbn [reduce] in H.
  - injection H as <-. exists [], [], []. now rewrite !app_nil_r.
  - destruct (processDataPointToPreparedStatement init (key, value)) as [acc |] eqn:Hs;
      cbn [bind] in H; [| discriminate].
    apply IH in H. destruct H as (cs & bs & vs & Hc & Hb & Hv).
    apply processDataPointToPreparedStatement_Ok in Hs.
    destruct Hs as (binding & vs' & Hc' & Hb' & Hv' & _).
    exists (key :: cs), (binding :: bs), (vs' ++ vs)%list.
    rewrite Hc, Hb, Hv, Hc', Hb', Hv', <- !app_assoc. repeat split.
Qed.


Lemma nth_error_middle {A : Type} (l l' : list A) (x : A) :
  nth_error ((l ++ [x]) ++ l') (length l) = Some x.
Proof.
  rewrite <- app_assoc. rewrite nth_error_app2 by lia.
  now rewrite Nat.sub_diag.
Qed.



(** Where an entry of the encoded object lands: a field other than the
    location is bound, through the placeholder of its column, to the text
    that [processDataPointToValue] gives for it. *)
Lemma entry_bound (surveyId : string) (dataPoint : Obj) (r : Insert)
    (key : string) (value : JsVal) :
  transformToPostgresInsert surveyId dataPoint = Ok r ->
  In (key, value) (dataPointForPostgres surveyId dataPoint) ->
  key <> "location" ->
  exists acc text,
    processKeyAndValues (dataPointForPostgres surveyId dataPoint) = Ok acc
    /\ written acc r
    /\ processDataPointToValue key value = Ok (JStr text)
    /\ bound (columns acc) (parameterBindings acc) (insert_values r) key (JStr text).
Proof.
  intros H Hin Hloc.
  apply transformToPostgresInsert_written in H.
  destruct H as (acc & Hacc & Hwritten). exists acc.
  apply in_split in Hin. destruct Hin as (before & after & Hsplit).
  pose proof Hacc as Hfold. unfold processKeyAndValues in Hfold.
  rewrite Hsplit, reduce_app in Hfold.
  apply bind_Ok_inv in Hfold. destruct Hfold as (accb & Hbefore & Hrest).
  cbn [reduce] in Hrest.
  apply bind_Ok_inv in Hrest. destruct Hrest as (accx & Hstep & Hafter).
  pose proof (reduce_invariant _ aligned aligned_step _ _ _ aligned_initialAcc Hbefore)
    as [_ Hindex].
  apply reduce_columns in Hbefore. destruct Hbefore as (Hcols & Hbinds & _).
  cbn [initialAcc columns parameterBindings app length Nat.add] in Hcols, Hbinds.
  apply reduce_extends in Hafter. destruct Hafter as (cs & bs & vs & Hc & Hb & Hv).
  unfold processDataPointToPreparedStatement in Hstep.
  rewrite convertKeyToParamterBinding_plain in Hstep by assumption.
  cbn [bind] in Hstep.
  destruct (processDataPointToValue key value) as [v |] eqn:Hvalue; cbn [bind] in Hstep;
    [| discriminate].
  destruct (processDataPointToValue_string _ _ _ Hloc Hvalue) as [text ->].
  injection Hstep as <-. cbn [columns parameterBindings values wrapInArray] in Hc, Hb, Hv.
  exists text. split; [exact Hacc |]. split; [exact Hwritten |]. split; [reflexivity |].
  exists (length (columns accb)), (length (values accb)).
  destruct Hwritten as [_ ->]. rewrite Hc, Hb, Hv, Hindex.
  split; [apply nth_error_middle |]. split; [| apply nth_error_middle].
  replace (length (columns accb)) with (length (parameterBindings accb)).
  - apply nth_error_middle.
  - rewrite Hcols, Hbinds. unfold Object_keys. now rewrite length_map.
Qed.


Example transformToPostgresInsert_sample :
  transformToPostgresInsert "survey-1" sample_point = Ok sample_insert.
Proof. reflexivity. Qed.


Example sample_insert_placeholders :
  placeholders (query sample_insert) = 14 /\ length (insert_values sample_insert) = 7.
Proof. split; reflexivity. Qed.

(** ** The upsert statement *)

(** C7. Whenever a raw data point encodes, the produced text is the column
    list and the binding list of an INSERT, followed by
    [ON CONFLICT(data_point_id) DO UPDATE SET] with the same column list
    and the same binding list; the columns are the keys of the encoded
    object, one binding each, and [data_point_id] is among them. *)
Theorem upsert_repeats_columns_and_bindings
    (surveyId : string) (dataPoint : Obj) (r : Insert) :
  transformToPostgresInsert surveyId dataPoint = Ok r ->
  exists cols binds : list string,
    let columnList := String.concat ", " cols in
    let bindingList := String.concat ", " binds in
    query r
    = ("(" ++ columnList ++ ") VALUES (" ++ bindingList ++ ")")
        ++ LF ++ indent12 ++ "ON CONFLICT(data_point_id)"
        ++ LF ++ indent12 ++ "DO UPDATE SET(" ++ columnList ++ ") = ("
        ++ bindingList ++ ")"
    /\ cols = Object_keys (dataPointForPostgres surveyId dataPoint)
    /\ length binds = length cols
    /\ In "data_point_id" cols.
Proof.
  intros H. apply transformToPostgresInsert_Ok in H.
  destruct H as (acc & Hacc & Hquery & _).
  destruct (processKeyAndValues_Ok _ _ Hacc) as (Hcols & Hlen & _).
  exists (columns acc), (parameterBindings acc). cbv zeta.
  split; [exact Hquery |]. split; [exact Hcols |]. split; [exact Hlen |].
  rewrite Hcols. unfold dataPointForPostgres.
  apply Object_keys_set. now right.
Qed.

Lemma upsert_repeats_columns_and_bindings_witness :
  transformToPostgresInsert "survey-1" sample_point = Ok sample_insert
  /\ exists cols binds : list string,
      let columnList := String.concat ", " cols in
      let bindingList := String.concat ", " binds in
      query sample_insert
      = ("(" ++ columnList ++ ") VALUES (" ++ bindingList ++ ")")
          ++ LF ++ indent12 ++ "ON CONFLICT(data_point_id)"
          ++ LF ++ indent12 ++ "DO UPDATE SET(" ++ columnList ++ ") = ("
          ++ bindingList ++ ")"
      /\ cols = Object_keys (dataPointForPostgres "survey-1" sample_point)
      /\ length binds = length cols
      /\ In "data_point_id" cols.
Proof.
  split; [reflexivity |].
  apply (upsert_repeats_columns_and_bindings "survey-1" sample_point sample_insert).
  reflexivity.
Defined.

(** The gateway puts [INSERT INTO] and the table name in front of it. *)
Lemma addDataPointToSurveyNoStudyId_statement
    (DB : Type) (pool_query : DB -> string -> list JsVal -> DB * Result QueryResult)
    (surveyId : string) (dataPoint : Obj) (db db' : DB) (tablename : JsVal)
    (r : Insert) :
  getTablenameForSurveyId pool_query surveyId db = (db', Ok tablename) ->
  transformToPostgresInsert surveyId (obj_set dataPoint "survey_id" (JStr surveyId))
  = Ok r ->
  addDataPointToSurveyNoStudyId pool_query surveyId dataPoint db
  = pool_query db'
      ("INSERT INTO " ++ ToString tablename ++ LF ++ indent19 ++ query r)
      (insert_values r).
Proof.
  intros Ht Hr. unfold addDataPointToSurveyNoStudyId, await at 1.
  rewrite Ht. unfold await, settled. rewrite Hr. reflexivity.
Qed.

(** ** Keys that are dropped *)

Lemma Gehl_field_valid (k : string) :
  Set_has allGehlFieldsStrings k = true -> Set_has validDataPointProperties k = true.
Proof.
  intros H. apply Set_has_In in H. apply Set_has_In. cbn in H |- *. intuition.
Qed.

Lemma unknown_not_kept (o : Obj) (k : string) :
  Set_has validDataPointProperties k = false -> kept o k = false.
Proof.
  intros H. unfold kept.
  destruct (Set_has allGehlFieldsStrings k) eqn:Hg; [| reflexivity].
  apply Gehl_field_valid in Hg. congruence.
Qed.

Lemma is_Point_Throw_inv (location : JsVal) (e : JsError) :
  is_Point location = Throw e -> e = TypeError "type".
Proof. destruct location; cbn; congruence. Qed.

Lemma get_prop_Throw_inv (v : JsVal) (k : string) (e : JsError) :
  get_prop v k = Throw e -> e = TypeError k.
Proof. destruct v; cbn; congruence. Qed.

(** The unknown-field error comes from a key outside
    [validDataPointProperties] only. *)
Lemma processDataPointToValue_UnexpectedKey (key : string) (value : JsVal) (k : string) :
  processDataPointToValue key value = Throw (UnexpectedKey k) ->
  Set_has validDataPointProperties key = false.
Proof.
  unfold processDataPointToValue.
  destruct (String.eqb key "location").
  { cbv zeta.
    destruct (is_Point value) as [[|] |] eqn:Hp; cbn [bind]; try discriminate.
    - destruct (get_prop value "longitude") eqn:H1; cbn [bind].
      + destruct (get_prop value "latitude") eqn:H2; cbn [bind]; [discriminate |].
        apply get_prop_Throw_inv in H2. congruence.
      + apply get_prop_Throw_inv in H1. congruence.
    - apply is_Point_Throw_inv in Hp. congruence. }
  destruct (String.eqb key "groups").
  { repeat match goal with |- (if ?b then _ else _) = _ -> _ => destruct b end;
      discriminate. }
  destruct (String.eqb key "age").
  { repeat match goal with |- (if ?b then _ else _) = _ -> _ => destruct b end;
      discriminate. }
  destruct (String.eqb key "activities").
  { intros H. apply bind_Throw_inv in H. destruct H as [H | (s & _ & H)]; [| discriminate].
    apply javascriptArrayToPostgresArray_Throw_inv in H. destruct H. discriminate. }
  destruct (Set_has validDataPointProperties key); [discriminate | reflexivity].
Qed.

Lemma processDataPointToPreparedStatement_UnexpectedKey
    (acc : Acc) (key : string) (value : JsVal) (k : string) :
  processDataPointToPreparedStatement acc (key, value) = Throw (UnexpectedKey k) ->
  Set_has validDataPointProperties key = false.
Proof.
  unfold processDataPointToPreparedStatement. intros H.
  apply bind_Throw_inv in H. destruct H as [H | ([i b] & _ & H)].
  - unfold convertKeyToParamterBinding in H.
    destruct (String.eqb key "location"); [| discriminate].
    apply bind_Throw_inv in H. destruct H as [H | ([|] & _ & H)]; try discriminate.
    apply is_Point_Throw_inv in H. discriminate.
  - apply bind_Throw_inv in H. destruct H as [H | (v & _ & H)]; [| discriminate].
    eapply processDataPointToValue_UnexpectedKey, H.
Qed.

(** No raw data point makes the encoder throw the unknown-field error. *)
Lemma transformToPostgresInsert_never_UnexpectedKey
    (surveyId : string) (dataPoint : Obj) (k : string) :
  transformToPostgresInsert surveyId dataPoint <> Throw (UnexpectedKey k).
Proof.
  unfold transformToPostgresInsert. intros H.
  apply bind_Throw_inv in H. destruct H as [H | (acc & _ & H)]; [| discriminate].
  apply reduce_Throw_inv in H. destruct H as (acc & [key value] & Hin & H).
  apply processDataPointToPreparedStatement_UnexpectedKey in H.
  assert (Hk : In key (Object_keys (dataPointForPostgres surveyId dataPoint)))
    by (unfold Object_keys; apply in_map_iff; now exists (key, value)).
  apply dataPointForPostgres_valid in Hk. congruence.
Qed.

Lemma transformToPostgresInsert_dropped (surveyId : string) (o : Obj) (k : string) :
  kept o k = false -> k <> "data_point_id" ->
  transformToPostgresInsert surveyId o
  = transformToPostgresInsert surveyId (obj_delete o k).
Proof.
  intros Hk Hne. unfold transformToPostgresInsert.
  now rewrite <- dataPointForPostgres_dropped.
Qed.

Lemma obj_get_set_ne (o : Obj) (k k' : string) (v : JsVal) :
  k <> k' -> obj_get (obj_set o k v) k' = obj_get o k'.
Proof.
  intros Hne. induction o as [| [k0 v0] o IH]; cbn.
  - now destruct (String.eqb_spec k k').
  - destruct (String.eqb_spec k0 k) as [-> | Hk]; cbn.
    + now destruct (String.eqb_spec k k').
    + now rewrite IH.
Qed.

Lemma obj_delete_set_ne (o : Obj) (k k' : string) (v : JsVal) :
  k <> k' -> obj_delete (obj_set o k v) k' = obj_set (obj_delete o k') k v.
Proof.
  intros Hne. unfold obj_delete. induction o as [| [k0 v0] o IH]; cbn.
  - now destruct (String.eqb_spec k k').
  - destruct (String.eqb_spec k0 k) as [-> | Hk]; cbn.
    + destruct (String.eqb_spec k k'); [contradiction |]. cbn.
      now rewrite String.eqb_refl.
    + destruct (String.eqb_spec k0 k'); cbn; [exact IH |].
      destruct (String.eqb_spec k0 k); [contradiction |]. now rewrite IH.
Qed.

(** C1, as amended. A key outside the known field set is silently dropped:
    the encoding is the encoding of the data point without that key, the
    key is no column of the encoded object, and the encoder never throws
    the unknown-field error. *)
Theorem unknown_key_dropped (surveyId : string) (dataPoint : Obj) (k : string) :
  Set_has validDataPointProperties k = false ->
  transformToPostgresInsert surveyId dataPoint
  = transformToPostgresInsert surveyId (obj_delete dataPoint k)
  /\ ~ In k (Object_keys (dataPointForPostgres surveyId dataPoint))
  /\ (forall acc,
        processKeyAndValues (dataPointForPostgres surveyId dataPoint) = Ok acc ->
        ~ In k (columns acc))
  /\ forall k', transformToPostgresInsert surveyId dataPoint <> Throw (UnexpectedKey k').
Proof.
  intros Hk.
  assert (Hnotin : ~ In k (Object_keys (dataPointForPostgres surveyId dataPoint))).
  { intros Hin. apply dataPointForPostgres_valid in Hin. congruence. }
  split; [| split; [exact Hnotin | split]].
  - apply transformToPostgresInsert_dropped.
    + now apply unknown_not_kept.
    + intros ->. discriminate.
  - intros acc Hacc. apply processKeyAndValues_Ok in Hacc.
    destruct Hacc as (-> & _). exact Hnotin.
  - intros k'. apply transformToPostgresInsert_never_UnexpectedKey.
Qed.

Lemma unknown_key_dropped_witness :
  Set_has validDataPointProperties "favourite_colour" = false
  /\ transformToPostgresInsert "survey-1" point_with_unknown_key
     = transformToPostgresInsert "survey-1"
         (obj_delete point_with_unknown_key "favourite_colour")
  /\ ~ In "favourite_colour"
          (Object_keys (dataPointForPostgres "survey-1" point_with_unknown_key))
  /\ (forall acc,
        processKeyAndValues (dataPointForPostgres "survey-1" point_with_unknown_key)
        = Ok acc ->
        ~ In "favourite_colour" (columns acc))
  /\ forall k',
       transformToPostgresInsert "survey-1" point_with_unknown_key
       <> Throw (UnexpectedKey k').
Proof.
  split; [reflexivity |].
  apply (unknown_key_dropped "survey-1" point_with_unknown_key "favourite_colour").
  reflexivity.
Defined.

(** C1, as stated, fails: a data point with the key [favourite_colour],
    outside the known field set, encodes, and to a statement. *)
Lemma unknown_key_is_not_rejected :
  In "favourite_colour" (Object_keys point_with_unknown_key)
  /\ Set_has validDataPointProperties "favourite_colour" = false
  /\ transformToPostgresInsert "survey-1" point_with_unknown_key
     = Ok {| query := upsert_query acc_without_unknown_key;
             insert_values := values acc_without_unknown_key |}
  /\ is_Throw (transformToPostgresInsert "survey-1" point_with_unknown_key) = false.
Proof. cbn. intuition. Qed.

(** The same at the gateway: the statement sent to the pool does not depend
    on the unknown key. *)
Lemma addDataPointToSurveyNoStudyId_unknown_key
    (DB : Type) (pool_query : DB -> string -> list JsVal -> DB * Result QueryResult)
    (surveyId : string) (dataPoint : Obj) (k : string) (db : DB) :
  Set_has validDataPointProperties k = false ->
  addDataPointToSurveyNoStudyId pool_query surveyId dataPoint db
  = addDataPointToSurveyNoStudyId pool_query surveyId (obj_delete dataPoint k) db.
Proof.
  intros Hk. unfold addDataPointToSurveyNoStudyId.
  rewrite (transformToPostgresInsert_dropped surveyId _ k).
  - rewrite obj_delete_set_ne; [reflexivity |]. intros <-. discriminate.
  - now apply unknown_not_kept.
  - intros ->. discriminate.
Qed.

(** C6, as amended. A Gehl field whose value is [null] is dropped: the
    encoding is the encoding of the data point without that key, so the
    data point is not rejected because of it, and the key is no column of
    the encoded object. *)
Theorem null_field_dropped (surveyId : string) (dataPoint : Obj) (k : string) :
  Set_has allGehlFieldsStrings k = true ->
  obj_get dataPoint k = JNull ->
  transformToPostgresInsert surveyId dataPoint
  = transformToPostgresInsert surveyId (obj_delete dataPoint k)
  /\ ~ In k (Object_keys (dataPointForPostgres surveyId dataPoint))
  /\ forall acc,
       processKeyAndValues (dataPointForPostgres surveyId dataPoint) = Ok acc ->
       ~ In k (columns acc).
Proof.
  intros Hg Hnull.
  assert (Hkept : kept dataPoint k = false).
  { unfold kept. rewrite Hnull. apply andb_false_r. }
  assert (Hnotin : ~ In k (Object_keys (dataPointForPostgres surveyId dataPoint))).
  { intros Hin. apply dataPointForPostgres_keys in Hin.
    destruct Hin as [Hin | [-> | ->]]; [congruence | discriminate | discriminate]. }
  split; [| split; [exact Hnotin |]].
  - apply transformToPostgresInsert_dropped; [assumption |].
    intros ->. discriminate.
  - intros acc Hacc. apply processKeyAndValues_Ok in Hacc.
    destruct Hacc as (-> & _). exact Hnotin.
Qed.

Lemma null_field_dropped_witness :
  Set_has allGehlFieldsStrings "age" = true
  /\ obj_get point_with_null_age "age" = JNull
  /\ transformToPostgresInsert "survey-1" point_with_null_age
     = transformToPostgresInsert "survey-1" (obj_delete point_with_null_age "age")
  /\ ~ In "age" (Object_keys (dataPointForPostgres "survey-1" point_with_null_age))
  /\ forall acc,
       processKeyAndValues (dataPointForPostgres "survey-1" point_with_null_age)
       = Ok acc ->
       ~ In "age" (columns acc).
Proof.
  split; [reflexivity |]. split; [reflexivity |].
  apply (null_field_dropped "survey-1" point_with_null_age "age"); reflexivity.
Defined.

Example null_age_encoding :
  transformToPostgresInsert "survey-1" point_with_null_age
  = Ok {| query := upsert_query acc_without_unknown_key;
          insert_values := values acc_without_unknown_key |}.
Proof. reflexivity. Qed.

(** C6, as stated, fails for [undefined]: the field stays, as a column, a
    placeholder and the bound text ["undefined"]. *)
Lemma undefined_field_is_not_dropped :
  In "gender" (Object_keys point_with_undefined_gender)
  /\ obj_get point_with_undefined_gender "gender" = JUndefined
  /\ processKeyAndValues (dataPointForPostgres "survey-1" point_with_undefined_gender)
     = Ok acc_with_undefined_gender
  /\ transformToPostgresInsert "survey-1" point_with_undefined_gender
     = Ok {| query := upsert_query acc_with_undefined_gender;
             insert_values := values acc_with_undefined_gender |}
  /\ In "gender" (columns acc_with_undefined_gender)
  /\ In (JStr "undefined") (values acc_with_undefined_gender).
Proof. cbn. intuition. Qed.

(** An [undefined] value can also make the data point fail. *)
Example undefined_age_rejected :
  transformToPostgresInsert "survey-1" [("age", JUndefined)]
  = Throw (InvalidAge JUndefined).
Proof. reflexivity. Qed.

(** [data_point_id] is set again after the deletion, whatever it was. *)
Example null_data_point_id_kept :
  transformToPostgresInsert "survey-1" [("data_point_id", JNull)]
  = Ok {| query := upsert_query {| columns := ["survey_id"; "data_point_id"];
                                   values := [JStr "survey-1"; JStr "null"];
                                   parameterBindings := ["$1"; "$2"];
                                   index := 3 |};
          insert_values := [JStr "survey-1"; JStr "null"] |}.
Proof. reflexivity. Qed.

(** ** The location field *)

Lemma get_prop_property (v : JsVal) (k : string) :
  nullish v = false -> get_prop v k = Ok (property v k).
Proof. destruct v; cbn; congruence. Qed.

Lemma truthy_Point (t : JsVal) :
  truthy t && strict_eq_string t "Point" = strict_eq_string t "Point".
Proof.
  destruct t; try reflexivity; try apply andb_false_r.
  cbn. destruct (String.eqb_spec s "Point") as [-> | _];
    [reflexivity | apply andb_false_r].
Qed.

Lemma is_Point_has_type_Point (location : JsVal) :
  nullish location = false -> is_Point location = Ok (has_type_Point location).
Proof.
  intros H. unfold is_Point, has_type_Point.
  rewrite (get_prop_property _ _ H). cbn [bind]. now rewrite truthy_Point.
Qed.

Lemma not_nullish (v : JsVal) : v <> JNull -> v <> JUndefined -> nullish v = false.
Proof. destruct v; cbn; congruence. Qed.

(** C5, as amended. For a location that is neither [null] nor [undefined],
    the step of the encoder on the location field gives: with type
    ['Point'], the one binding [ST_GeomFromGeoJSON($n)], one bound value,
    the JSON text of the location, and the index advanced by one; without,
    the one binding [ST_GeomFromText($n, $n+1)], two bound values, the
    longitude then the latitude, and the index advanced by two. *)
Theorem location_binding (acc : Acc) (loc : JsVal) :
  loc <> JNull -> loc <> JUndefined ->
  processDataPointToPreparedStatement acc ("location", loc)
  = Ok (if has_type_Point loc then
          {| columns := (columns acc ++ ["location"])%list;
             values := (values acc ++ [JSON_stringify loc])%list;
             parameterBindings :=
               (parameterBindings acc
                  ++ [("ST_GeomFromGeoJSON($" ++ nat_to_string (index acc) ++ ")")%string])%list;
             index := index acc + 1 |}
        else
          {| columns := (columns acc ++ ["location"])%list;
             values :=
               (values acc ++ [property loc "longitude"; property loc "latitude"])%list;
             parameterBindings :=
               (parameterBindings acc
                  ++ [("ST_GeomFromText($" ++ nat_to_string (index acc) ++ ", $"
                        ++ nat_to_string (index acc + 1) ++ ")")%string])%list;
             index := index acc + 2 |})
  /\ (has_type_Point loc = true -> exists text, JSON_stringify loc = JStr text).
Proof.
  intros Hnull Hundef. pose proof (not_nullish _ Hnull Hundef) as Hn. split.
  - unfold processDataPointToPreparedStatement, convertKeyToParamterBinding,
      processDataPointToValue.
    cbn [String.eqb Ascii.eqb Bool.eqb]. cbv zeta.
    rewrite (is_Point_has_type_Point _ Hn). cbn [bind].
    destruct (has_type_Point loc); cbn [bind].
    + now rewrite JSON_stringify_wrap.
    + rewrite !(get_prop_property _ _ Hn). reflexivity.
  - destruct loc; cbn; try discriminate. intros _. eauto.
Qed.

Lemma location_binding_witness :
  geojson_point <> JNull /\ geojson_point <> JUndefined
  /\ processDataPointToPreparedStatement initialAcc ("location", geojson_point)
     = Ok {| columns := ["location"];
             values := [JSON_stringify geojson_point];
             parameterBindings := ["ST_GeomFromGeoJSON($1)"];
             index := 2 |}
  /\ (has_type_Point geojson_point = true ->
      exists text, JSON_stringify geojson_point = JStr text).
Proof.
  split; [discriminate |]. split; [discriminate |].
  apply (location_binding initialAcc geojson_point); discriminate.
Defined.

Example location_pair_step :
  processDataPointToPreparedStatement
    {| columns := ["gender"]; values := [JStr "male"];
       parameterBindings := ["$1"]; index := 2 |}
    ("location", JObj [("longitude", JNum "-79.34"); ("latitude", JNum "43.7")])
  = Ok {| columns := ["gender"; "location"];
          values := [JStr "male"; JNum "-79.34"; JNum "43.7"];
          parameterBindings := ["$1"; "ST_GeomFromText($2, $3)"];
          index := 4 |}.
Proof. reflexivity. Qed.

(** C5, as stated, fails for a location without type ['Point'] that is
    [null]: the step throws, and in a data point the field is dropped, so
    no [ST_GeomFromText] binding is emitted and no value is bound. *)
Lemma null_location_has_no_binding :
  has_type_Point JNull = false
  /\ processDataPointToPreparedStatement initialAcc ("location", JNull)
     = Throw (TypeError "type")
  /\ processKeyAndValues
       (dataPointForPostgres "survey-1" [("location", JNull); ("data_point_id", JStr "p1")])
     = Ok {| columns := ["survey_id"; "data_point_id"];
             values := [JStr "survey-1"; JStr "p1"];
             parameterBindings := ["$1"; "$2"];
             index := 3 |}.
Proof. repeat split. Qed.

Example undefined_location_rejected :
  transformToPostgresInsert "survey-1" [("location", JUndefined)]
  = Throw (TypeError "type").
Proof. reflexivity. Qed.

(** ** Categorical labels *)

Lemma label_table_inv (key : string) (table : list (string * string)) :
  label_table key = Some table ->
  (key = "age" /\ table = spec_age_labels)
  \/ (key = "groups" /\ table = spec_groups_labels).
Proof.
  unfold label_table.
  destruct (String.eqb_spec key "age") as [-> | _]; [intros [= <-]; now left |].
  destruct (String.eqb_spec key "groups") as [-> | _]; [intros [= <-]; now right |].
  discriminate.
Qed.

Lemma processDataPointToValue_label (key : string) (table : list (string * string))
    (v : JsVal) :
  label_table key = Some table ->
  processDataPointToValue key v
  = match stored_label table v with
    | Some stored => Ok (JStr stored)
    | None => Throw (invalid_label key v)
    end.
Proof.
  intros H. apply label_table_inv in H. destruct H as [[-> ->] | [-> ->]];
    unfold processDataPointToValue, invalid_label;
    cbn [String.eqb Ascii.eqb Bool.eqb];
    (destruct v as [| | b | t | s | xs | ps]; try reflexivity);
    cbn [strict_eq_string stored_label spec_age_labels spec_groups_labels lookup_label];
    repeat match goal with
           | |- context [String.eqb s ?l] => destruct (String.eqb s l)
           end; reflexivity.
Qed.





Example point_with_child_encoded :
  transformToPostgresInsert "survey-1" point_with_child = Ok insert_with_child
  /\ written acc_with_child insert_with_child
  /\ bound (columns acc_with_child) (parameterBindings acc_with_child)
           (insert_values insert_with_child) "age" (JStr "0-14").
Proof.
  split; [reflexivity |]. split; [split; reflexivity |].
  exists 0, 0. repeat split.
Qed.

Example age_child_stored :
  transformToPostgresInsert "survey-1" [("age", JStr "child"); ("data_point_id", JStr "p1")]
  = Ok {| query := upsert_query {| columns := ["age"; "survey_id"; "data_point_id"];
                                   values := [JStr "0-14"; JStr "survey-1"; JStr "p1"];
                                   parameterBindings := ["$1"; "$2"; "$3"];
                                   index := 4 |};
          insert_values := [JStr "0-14"; JStr "survey-1"; JStr "p1"] |}.
Proof. reflexivity. Qed.

Example groups_crowd_stored :
  processDataPointToValue "groups" (JStr "crowd") = Ok (JStr "group_8+").
Proof. reflexivity. Qed.

Example age_teen_rejected :
  transformToPostgresInsert "survey-1" point_with_teen = Throw (InvalidAge (JStr "teen")).
Proof. reflexivity. Qed.

(** ** Null in an activities list *)

Lemma activities_step_throws (xs : list JsVal) :
  existsb contains_null xs = true ->
  forall acc,
    is_Throw (processDataPointToPreparedStatement acc ("activities", JArr xs)) = true.
Proof.
  intros Hnull acc. unfold processDataPointToPreparedStatement.
  rewrite convertKeyToParamterBinding_plain by discriminate. cbn [bind].
  unfold processDataPointToValue. cbn [String.eqb Ascii.eqb Bool.eqb]. cbv zeta.
  pose proof (javascriptArrayToPostgresArray_is_Ok xs) as H. rewrite Hnull in H.
  destruct (javascriptArrayToPostgresArray xs); [discriminate | reflexivity].
Qed.

Lemma is_Throw_transformToPostgresInsert (surveyId : string) (dataPoint : Obj) :
  is_Throw (processKeyAndValues (dataPointForPostgres surveyId dataPoint)) = true ->
  is_Throw (transformToPostgresInsert surveyId dataPoint) = true.
Proof.
  unfold transformToPostgresInsert.
  now destruct (processKeyAndValues (dataPointForPostgres surveyId dataPoint)).
Qed.

Lemma activities_with_null_rejected (surveyId : string) (dataPoint : Obj)
    (xs : list JsVal) :
  obj_get dataPoint "activities" = JArr xs ->
  existsb contains_null xs = true ->
  is_Throw (transformToPostgresInsert surveyId dataPoint) = true.
Proof.
  intros Hget Hnull. apply is_Throw_transformToPostgresInsert.
  apply (reduce_throws _ ("activities", JArr xs)).
  - now apply activities_step_throws.
  - rewrite <- Hget. apply dataPointForPostgres_In.
    + apply obj_get_present. rewrite Hget. discriminate.
    + unfold kept. now rewrite Hget.
Qed.



(** So an array literal is produced only from a list without [null]. *)
Lemma encoded_activities_hold_no_null (surveyId : string) (dataPoint : Obj)
    (xs : list JsVal) (r : Insert) :
  transformToPostgresInsert surveyId dataPoint = Ok r ->
  obj_get dataPoint "activities" = JArr xs ->
  existsb contains_null xs = false.
Proof.
  intros Hr Hget. destruct (existsb contains_null xs) eqn:Hnull; [| reflexivity].
  pose proof (activities_with_null_rejected surveyId dataPoint xs Hget Hnull) as H.
  rewrite Hr in H. discriminate.
Qed.

Example nested_null_error :
  transformToPostgresInsert "survey-1" point_with_nested_null
  = Throw (NullInArray [JNull]).
Proof. reflexivity. Qed.

(** ** Deleting a data point *)

Section DeleteDataPoint.
Context {DB : Type}.
Variable pool_query : DB -> string -> list JsVal -> DB * Result QueryResult.

Lemma deleteDataPoint_unfold (surveyId : string) (dataPointId : JsVal)
    (db db1 : DB) (tablename : JsVal) :
  getTablenameForSurveyId pool_query surveyId db = (db1, Ok tablename) ->
  deleteDataPoint pool_query surveyId dataPointId db
  = match pool_query db1 (delete_query tablename dataPointId) [] with
    | (db2, Ok res) =>
        if Nat.eqb (rowCount res) 1 then (db2, Ok res)
        else (db2, Throw (NoDataPointFound (delete_query tablename dataPointId)
                                           dataPointId))
    | (db2, Throw e) => (db2, Throw e)
    end.
Proof.
  intros Ht. unfold deleteDataPoint, await at 1. rewrite Ht.
  unfold await, reject, resolve.
  destruct (pool_query db1 (delete_query tablename dataPointId) [])
    as [db2 [res | e]]; [| reflexivity].
  now destruct (Nat.eqb (rowCount res) 1).
Qed.

(** A resolved delete has issued the DELETE, on the table of the survey,
    and the DELETE has affected exactly one row. *)
Lemma deleteDataPoint_Ok_inv (surveyId : string) (dataPointId : JsVal)
    (db db' : DB) (res : QueryResult) :
  deleteDataPoint pool_query surveyId dataPointId db = (db', Ok res) ->
  exists db1 tablename,
    getTablenameForSurveyId pool_query surveyId db = (db1, Ok tablename)
    /\ pool_query db1 (delete_query tablename dataPointId) [] = (db', Ok res)
    /\ rowCount res = 1.
Proof.
  destruct (getTablenameForSurveyId pool_query surveyId db) as [db1 [t | e]] eqn:Ht.
  - rewrite (deleteDataPoint_unfold _ _ _ _ _ Ht).
    destruct (pool_query db1 (delete_query t dataPointId) []) as [db2 [r | e]] eqn:Hq;
      [| discriminate].
    destruct (Nat.eqb_spec (rowCount r) 1) as [H1 | _]; [| discriminate].
    intros [= <- <-]. exists db1, t. auto.
  - unfold deleteDataPoint, await. rewrite Ht. discriminate.
Qed.
End DeleteDataPoint.



Example delete_then_delete_again :
  deleteDataPoint mem_query "survey-1" (JStr "p1") sample_db
  = (db_without_p1, Ok {| command := "DELETE"; rowCount := 1; rows := [] |})
  /\ deleteDataPoint mem_query "survey-1" (JStr "p1") db_without_p1
     = (db_without_p1,
        Throw (NoDataPointFound
                 (delete_query (JStr "data_collection.study_a1") (JStr "p1"))
                 (JStr "p1"))).
Proof. split; reflexivity. Qed.

(** *** Deleting twice, on the in-memory database *)

Lemma mem_getTablenameForSurveyId (surveyId : string) (db : MemDB) :
  getTablenameForSurveyId mem_query surveyId db
  = (db, lookup_tablename (survey_to_tablename db) surveyId).
Proof.
  unfold getTablenameForSurveyId, await, mem_query, select_tablename, lookup_tablename.
  change (starts_with select_prefix (tablename_query surveyId)) with true.
  cbv iota zeta. cbn [rowCount rows].
  destruct (Nat.eqb _ 1); [| reflexivity].
  now destruct (filter _ (survey_to_tablename db)).
Qed.

Lemma filter_hit_twice {A : Type} (hit : A -> bool) (l : list A) :
  filter hit (filter (fun a => negb (hit a)) l) = []
  /\ filter (fun a => negb (hit a)) (filter (fun a => negb (hit a)) l)
     = filter (fun a => negb (hit a)) l.
Proof.
  induction l as [| a l [IH1 IH2]]; [now split |].
  cbn. destruct (hit a) eqn:Ha; cbn; [now split |].
  rewrite Ha. cbn. rewrite IH1, IH2. now split.
Qed.

(** Whatever the database holds: a delete that has succeeded fails with
    the not-found error when it is repeated, and changes nothing. *)
Lemma mem_delete_twice (surveyId : string) (dataPointId : JsVal)
    (db db' : MemDB) (res : QueryResult) :
  deleteDataPoint mem_query surveyId dataPointId db = (db', Ok res) ->
  exists text,
    deleteDataPoint mem_query surveyId dataPointId db'
    = (db', Throw (NoDataPointFound text dataPointId)).
Proof.
  intros H. apply deleteDataPoint_Ok_inv in H.
  destruct H as (db1 & tablename & Ht & Hq & Hrows).
  rewrite mem_getTablenameForSurveyId in Ht. injection Ht as <- Ht.
  exists (delete_query tablename dataPointId).
  unfold mem_query in Hq.
  change (select_tablename db (delete_query tablename dataPointId))
    with (@None QueryResult) in Hq.
  unfold delete_from in Hq.
  destruct (starts_with (delete_prefix (table_name db))
                        (delete_query tablename dataPointId)) eqn:Hp;
    [| discriminate].
  injection Hq as <- <-.
  assert (Ht' : getTablenameForSurveyId mem_query surveyId
                  {| survey_to_tablename := survey_to_tablename db;
                     table_name := table_name db;
                     table_ids :=
                       filter (fun id => negb (String.eqb
                                 (delete_query tablename dataPointId)
                                 (delete_query (JStr (table_name db)) (JStr id))))
                              (table_ids db) |}
                = ({| survey_to_tablename := survey_to_tablename db;
                      table_name := table_name db;
                      table_ids :=
                        filter (fun id => negb (String.eqb
                                  (delete_query tablename dataPointId)
                                  (delete_query (JStr (table_name db)) (JStr id))))
                               (table_ids db) |}, Ok tablename)).
  { rewrite mem_getTablenameForSurveyId. cbn [survey_to_tablename]. now rewrite Ht. }
  rewrite (deleteDataPoint_unfold _ _ _ _ _ _ Ht').
  unfold mem_query.
  change (select_tablename _ (delete_query tablename dataPointId))
    with (@None QueryResult).
  unfold delete_from. cbn [table_name table_ids survey_to_tablename].
  rewrite Hp.
  destruct (filter_hit_twice
              (fun id => String.eqb (delete_query tablename dataPointId)
                           (delete_query (JStr (table_name db)) (JStr id)))
              (table_ids db)) as [H1 H2].
  cbn [rowCount]. rewrite H1, H2. reflexivity.
Qed.

(** ** Table provisioning *)

(** *** [setString] determines the set's elements and their order *)

Lemma split_commas_comma_free (s : string) :
  comma_free s = true -> split_commas s = [s].
Proof.
  induction s as [| c s IH]; [reflexivity |].
  cbn. destruct (is_comma c); cbn; [discriminate |].
  intros H. now rewrite IH.
Qed.

Lemma split_commas_app (s rest : string) :
  comma_free s = true ->
  split_commas (s ++ "," ++ rest) = s :: split_commas rest.
Proof.
  induction s as [| c s IH]; [reflexivity |].
  cbn. destruct (is_comma c); cbn; [discriminate |].
  intros H. specialize (IH H). cbn in IH. now rewrite IH.
Qed.

Lemma split_commas_concat (l : list string) :
  l <> [] -> forallb comma_free l = true ->
  split_commas (String.concat "," l) = l.
Proof.
  induction l as [| s l IH]; [congruence |].
  intros _ H. cbn in H. apply andb_prop in H. destruct H as [Hs Hl].
  destruct l as [| s' l].
  - now apply split_commas_comma_free.
  - change (String.concat "," (s :: s' :: l))
      with (s ++ "," ++ String.concat "," (s' :: l)).
    rewrite split_commas_app by assumption.
    now rewrite IH.
Qed.

Lemma In_fold_Set_add (x : string) (l s : list string) :
  In x (fold_left Set_add l s) <-> In x s \/ In x l.
Proof.
  revert s. induction l as [| y l IH]; intros s; cbn.
  - intuition.
  - rewrite IH. unfold Set_add.
    destruct (existsb (String.eqb y) s) eqn:Hy.
    + apply (Set_has_In s y) in Hy. intuition (subst; auto).
    + rewrite in_app_iff. cbn. intuition.
Qed.

Lemma In_new_Set (x : string) (l : list string) : In x (new_Set l) <-> In x l.
Proof. unfold new_Set. rewrite In_fold_Set_add. cbn. intuition. Qed.

Lemma field_name_comma_free (f : GehlFields) : comma_free (field_name f) = true.
Proof. now destruct f. Qed.

Lemma field_name_inj (f g : GehlFields) : field_name f = field_name g -> f = g.
Proof. destruct f, g; cbn; intros H; try reflexivity; discriminate. Qed.

Lemma In_field_name (f : GehlFields) (fields : list GehlFields) :
  In (field_name f) (map field_name fields) <-> In f fields.
Proof.
  split; [| apply in_map].
  intros H. apply in_map_iff in H. destruct H as (g & Hg & Hin).
  apply field_name_inj in Hg. now subst.
Qed.

Lemma new_Set_field_names_comma_free (fields : list GehlFields) :
  forallb comma_free (new_Set (map field_name fields)) = true.
Proof.
  apply forallb_forall. intros x Hx. apply (proj1 (In_new_Set _ _)) in Hx.
  apply in_map_iff in Hx. destruct Hx as (f & <- & _).
  apply field_name_comma_free.
Qed.

(** Two sets of field names with the same [setString] are the same
    elements in the same order. *)
Lemma setString_new_Set_inj (fields : list GehlFields) (names : list string) :
  names <> [] -> setString names <> "" -> forallb comma_free names = true ->
  setString (new_Set (map field_name fields)) = setString names ->
  new_Set (map field_name fields) = names.
Proof.
  intros Hne Hnonempty Hfree H. unfold setString in *.
  destruct (new_Set (map field_name fields)) as [| n ns] eqn:Hset.
  - cbn in H. congruence.
  - rewrite <- (split_commas_concat (n :: ns)), H.
    + now apply split_commas_concat.
    + discriminate.
    + rewrite <- Hset. apply new_Set_field_names_comma_free.
Qed.

(** *** What [createNewTableFromGehlFields] answers *)

(** The call is decided by the distinct field names in their order of
    first occurrence. *)
Lemma createNewTableFromGehlFields_cases
    (study : Study) (tablename : string) (fields : list GehlFields) :
  (new_Set (map field_name fields) = map field_name genderLocationArray
   /\ createNewTableFromGehlFields study tablename fields
      = Ok (genderLocationTable tablename))
  \/ (new_Set (map field_name fields) = map field_name allGehlFieldsArray
      /\ createNewTableFromGehlFields study tablename fields
         = Ok (allGehlFieldsTable tablename))
  \/ (new_Set (map field_name fields) <> map field_name genderLocationArray
      /\ new_Set (map field_name fields) <> map field_name allGehlFieldsArray
      /\ createNewTableFromGehlFields study tablename fields
         = Throw (NoTablePossible (map field_name fields))).
Proof.
  unfold createNewTableFromGehlFields. cbv zeta.
  destruct (String.eqb_spec (setString (new_Set (map field_name fields)))
                            (setString genderLocation)) as [H1 | H1].
  { left. split; [| reflexivity].
    apply setString_new_Set_inj in H1; try discriminate; [exact H1 | reflexivity]. }
  destruct (String.eqb_spec (setString (new_Set (map field_name fields)))
                            (setString allGehlFields)) as [H2 | H2].
  { right; left. split; [| reflexivity].
    apply setString_new_Set_inj in H2; try discriminate; [exact H2 | reflexivity]. }
  right; right. repeat split.
  - intros H. apply H1. now rewrite H.
  - intros H. apply H2. now rewrite H.
Qed.

Lemma same_fields (fields selection : list GehlFields) :
  new_Set (map field_name fields) = map field_name selection ->
  forall f, In f fields <-> In f selection.
Proof.
  intros H f. rewrite <- (In_field_name f fields), <- (In_field_name f selection).
  rewrite <- H. symmetry. apply In_new_Set.
Qed.

(** A CREATE TABLE statement is returned only for a list whose set of names
    is one of the two supported selections. *)
Lemma createNewTableFromGehlFields_supported
    (study : Study) (tablename : string) (fields : list GehlFields) (ddl : string) :
  createNewTableFromGehlFields study tablename fields = Ok ddl ->
  (forall f, In f fields <-> In f genderLocationArray)
  \/ (forall f, In f fields <-> In f allGehlFieldsArray).
Proof.
  intros H.
  destruct (createNewTableFromGehlFields_cases study tablename fields)
    as [[Hs _] | [[Hs _] | (_ & _ & Ht)]].
  - left. now apply same_fields.
  - right. now apply same_fields.
  - congruence.
Qed.

(** Listed again, or in the order of the module's own constants, the two
    selections are accepted. *)
Example createNewTableFromGehlFields_duplicates (study : Study) :
  createNewTableFromGehlFields study "t" [gender; location; gender; gender]
  = Ok (genderLocationTable "t").
Proof. reflexivity. Qed.

Example createNewTableFromGehlFields_all (study : Study) :
  createNewTableFromGehlFields study "t" allGehlFieldsArray
  = Ok (allGehlFieldsTable "t").
Proof. reflexivity. Qed.

(** C2. At the fields [location, gender]: their set is the supported
    selection of gender and location, and the call throws the provisioning
    error, because the comparison goes through the text of the set in
    insertion order. *)
Theorem createNewTableFromGehlFields_location_gender
    (study : Study) (tablename : string) :
  (forall f, In f [location; gender] <-> In f genderLocationArray)
  /\ setString (new_Set (map field_name [location; gender])) = "location,gender"
  /\ setString genderLocation = "gender,location"
  /\ createNewTableFromGehlFields study tablename [location; gender]
     = Throw (NoTablePossible ["location"; "gender"]).
Proof.
  split; [| repeat split].
  intros f. cbn. intuition.
Qed.

(** *** The columns of the created table *)

Lemma genderLocationTable_columns (tablename : string) :
  genderLocationTable tablename = create_table_text tablename genderLocationColumns.
Proof. reflexivity. Qed.

Lemma allGehlFieldsTable_columns (tablename : string) :
  allGehlFieldsTable tablename = create_table_text tablename allGehlFieldsColumns.
Proof. reflexivity. Qed.

Lemma field_column_name (f g : GehlFields) :
  col_name (field_column f) = field_name g -> f = g.
Proof. apply field_name_inj. Qed.

(** C4, as amended. The text of a created table is made of a not-null
    [survey_id] foreign key, a [data_point_id] primary key, a not-null
    geometry [location], and the column of every field of the selection;
    the only field columns outside the selection are [creation_date] and
    [last_updated]. *)
Theorem created_table_columns
    (study : Study) (tablename : string) (fields : list GehlFields) (ddl : string) :
  createNewTableFromGehlFields study tablename fields = Ok ddl ->
  exists cols,
    ddl = create_table_text tablename cols
    /\ (cols = genderLocationColumns \/ cols = allGehlFieldsColumns)
    /\ In survey_id_column cols
    /\ In data_point_id_column cols
    /\ In (field_column location) cols
    /\ (forall f, In f fields -> In (field_column f) cols)
    /\ (forall f, In (field_name f) (map col_name cols) ->
                  In f fields \/ f = creation_date \/ f = last_updated).
Proof.
  intros H.
  destruct (createNewTableFromGehlFields_cases study tablename fields)
    as [[Hs Ht] | [[Hs Ht] | (_ & _ & Ht)]]; [| | congruence];
    rewrite Ht in H; injection H as <-;
    pose proof (same_fields _ _ Hs) as Hsame.
  - exists genderLocationColumns.
    split; [apply genderLocationTable_columns |]. split; [now left |].
    split; [cbn; auto |]. split; [cbn; auto |]. split; [cbn; auto 7 |]. split.
    + intros f Hf. apply Hsame in Hf. cbn in Hf.
      destruct Hf as [<- | [<- | []]]; cbn; auto 7.
    + intros f Hf. rewrite Hsame.
      destruct f; cbn in Hf |- *; intuition discriminate.
  - exists allGehlFieldsColumns.
    split; [apply allGehlFieldsTable_columns |]. split; [now right |].
    split; [cbn; auto |]. split; [cbn; auto |]. split; [cbn; auto 12 |]. split.
    + intros f Hf. apply Hsame in Hf. right; right.
      now apply in_map.
    + intros f _. left. apply Hsame. destruct f; cbn; auto 14.
Qed.

Lemma created_table_columns_witness :
  createNewTableFromGehlFields sample_study "data_collection.study_a1" [gender; location]
  = Ok (genderLocationTable "data_collection.study_a1")
  /\ exists cols,
      genderLocationTable "data_collection.study_a1"
      = create_table_text "data_collection.study_a1" cols
      /\ (cols = genderLocationColumns \/ cols = allGehlFieldsColumns)
      /\ In survey_id_column cols
      /\ In data_point_id_column cols
      /\ In (field_column location) cols
      /\ (forall f, In f [gender; location] -> In (field_column f) cols)
      /\ (forall f, In (field_name f) (map col_name cols) ->
                    In f [gender; location] \/ f = creation_date \/ f = last_updated).
Proof.
  split; [reflexivity |].
  apply (created_table_columns sample_study "data_collection.study_a1"
           [gender; location] (genderLocationTable "data_collection.study_a1")).
  reflexivity.
Defined.

(** C4, as stated, fails at the selection of gender and location: the
    created table has the columns [creation_date] and [last_updated], which
    are fields outside the selection. *)
Lemma minimal_table_has_timestamp_columns :
  createNewTableFromGehlFields sample_study "data_collection.study_a1" [gender; location]
  = Ok (create_table_text "data_collection.study_a1" genderLocationColumns)
  /\ In (field_column creation_date) genderLocationColumns
  /\ In (field_column last_updated) genderLocationColumns
  /\ ~ In creation_date [gender; location]
  /\ ~ In last_updated [gender; location].
Proof.
  split; [reflexivity |]. split; [cbn; auto 6 |]. split; [cbn; auto 6 |].
  split; cbn; intuition discriminate.
Qed.

(** * Further properties *)

(** ** Table names *)

Lemma count_hyphen_remove_hyphens (s : string) :
  count_char "-" (remove_hyphens s) = 0.
Proof.
  induction s as [| c s IH]; [reflexivity |].
  cbn [remove_hyphens]. destruct (Ascii.eqb c "-") eqn:Hc; [exact IH |].
  cbn [count_char]. now rewrite Hc, IH.
Qed.

Lemma length_remove_hyphens (s : string) :
  String.length (remove_hyphens s) + count_char "-" s = String.length s.
Proof.
  induction s as [| c s IH]; [reflexivity |].
  cbn [remove_hyphens count_char String.length].
  destruct (Ascii.eqb c "-"); cbn [String.length]; lia.
Qed.

Lemma remove_hyphens_hyphen_free (s : string) :
  count_char "-" s = 0 -> remove_hyphens s = s.
Proof.
  induction s as [| c s IH]; [reflexivity |].
  cbn [remove_hyphens count_char]. destruct (Ascii.eqb c "-"); [discriminate |].
  intros H. now rewrite IH.
Qed.

Lemma remove_hyphens_app (a b : string) :
  remove_hyphens (a ++ b) = remove_hyphens a ++ remove_hyphens b.
Proof.
  induction a as [| c a IH]; [reflexivity |].
  cbn. destruct (Ascii.eqb c "-"); cbn; now rewrite IH.
Qed.

Lemma remove_hyphens_filter (s : string) :
  remove_hyphens s
  = string_of_list_ascii
      (filter (fun c => negb (Ascii.eqb c "-")) (list_ascii_of_string s)).
Proof.
  induction s as [| c s IH]; [reflexivity |].
  cbn [remove_hyphens list_ascii_of_string filter].
  destruct (Ascii.eqb c "-"); cbn [negb string_of_list_ascii]; now rewrite IH.
Qed.

(** X1. The table name of a study is the prefix [data_collection.study_]
    followed by the characters of the study id that are not hyphens, in
    their order; so it has no hyphen, its length is 22 plus the number of
    those characters, and it is the same for the id with its hyphens
    already removed. *)
Theorem studyIdToTablename_strips_hyphens (studyId : string) :
  studyIdToTablename studyId
  = "data_collection.study_"
      ++ string_of_list_ascii
           (filter (fun c => negb (Ascii.eqb c "-")) (list_ascii_of_string studyId))
  /\ count_char "-" (studyIdToTablename studyId) = 0
  /\ String.length (studyIdToTablename studyId) + count_char "-" studyId
     = 22 + String.length studyId
  /\ studyIdToTablename (remove_hyphens studyId) = studyIdToTablename studyId.
Proof.
  split; [unfold studyIdToTablename; now rewrite remove_hyphens_filter |].
  unfold studyIdToTablename. split; [| split].
  - change (count_char "-" ("data_collection.study_" ++ remove_hyphens studyId))
      with (count_char "-" (remove_hyphens studyId)).
    apply count_hyphen_remove_hyphens.
  - change (String.length ("data_collection.study_" ++ remove_hyphens studyId))
      with (22 + String.length (remove_hyphens studyId)).
    pose proof (length_remove_hyphens studyId). lia.
  - rewrite (remove_hyphens_hyphen_free (remove_hyphens studyId)); [reflexivity |].
    apply count_hyphen_remove_hyphens.
Qed.

Example studyIdToTablename_sample :
  studyIdToTablename "7566b7ca-0372-46c6-9d2c-0e9fb38bebfb"
  = "data_collection.study_7566b7ca037246c69d2c0e9fb38bebfb".
Proof. reflexivity. Qed.

(** X2. Study ids that differ only by a hyphen have the same table. *)
Theorem studyIdToTablename_ignores_hyphens (a b : string) :
  studyIdToTablename (a ++ "-" ++ b) = studyIdToTablename (a ++ b).
Proof. unfold studyIdToTablename. now rewrite !remove_hyphens_app. Qed.

(** X3. Study ids without hyphens have different tables unless they are
    equal. *)
Theorem studyIdToTablename_injective (a b : string) :
  count_char "-" a = 0 -> count_char "-" b = 0 ->
  studyIdToTablename a = studyIdToTablename b -> a = b.
Proof.
  intros Ha Hb. unfold studyIdToTablename.
  rewrite !remove_hyphens_hyphen_free by assumption.
  intros H. now injection H.
Qed.

Lemma studyIdToTablename_injective_witness :
  count_char "-" "a1b2" = 0
  /\ studyIdToTablename "a1b2" = studyIdToTablename "a1b2"
  /\ "a1b2" = "a1b2".
Proof.
  split; [reflexivity |]. split; [reflexivity |].
  apply (studyIdToTablename_injective "a1b2" "a1b2"); reflexivity.
Defined.

(** ** Digits spelled out *)

Lemma digitToString_character (c : ascii) :
  digitToString (JStr (String c "")) = JStr (digit_word c).
Proof.
  unfold digit_word, digitToString.
  repeat match goal with
         | |- context [if ?b then _ else _] => destruct b
         end; reflexivity.
Qed.

Lemma digit_word_no_digit (c : ascii) : has_digit (digit_word c) = false.
Proof. destruct c as [[] [] [] [] [] [] [] []]; reflexivity. Qed.

Lemma digit_word_other (c : ascii) : is_digit c = false -> digit_word c = String c "".
Proof. destruct c as [[] [] [] [] [] [] [] []]; (reflexivity || discriminate). Qed.

Lemma has_digit_app (s t : string) : has_digit (s ++ t) = has_digit s || has_digit t.
Proof.
  induction s as [| c s IH]; [reflexivity |].
  cbn. now rewrite IH, orb_assoc.
Qed.

Lemma spell_out_no_digit (s : string) : has_digit (spell_out s) = false.
Proof.
  induction s as [| c s IH]; [reflexivity |].
  cbn [spell_out]. now rewrite has_digit_app, digit_word_no_digit, IH.
Qed.

Lemma spell_out_other (s : string) : has_digit s = false -> spell_out s = s.
Proof.
  induction s as [| c s IH]; [reflexivity |].
  cbn [has_digit spell_out]. intros H. apply orb_false_elim in H.
  destruct H as [Hc Hs]. now rewrite digit_word_other, IH.
Qed.

Lemma string_app_nil_r (s : string) : s ++ "" = s.
Proof. induction s as [| c s IH]; [reflexivity | cbn; now rewrite IH]. Qed.

Lemma string_app_assoc (s t u : string) : (s ++ t) ++ u = s ++ t ++ u.
Proof. induction s as [| c s IH]; [reflexivity | cbn; now rewrite IH]. Qed.

Lemma reduce_spell_out (rest a : string) :
  reduce (fun acc curr => concat_method acc (digitToString curr))
         (Array_from rest) (JStr a)
  = Ok (JStr (a ++ spell_out rest)).
Proof.
  revert a. induction rest as [| c rest IH]; intros a.
  - cbn. now rewrite string_app_nil_r.
  - unfold Array_from in *. cbn [list_ascii_of_string map reduce].
    rewrite digitToString_character. cbn [concat_method ToString bind].
    rewrite IH. cbn [spell_out]. now rewrite string_app_assoc.
Qed.

(** X4. For a text whose piece after the last hyphen does not start with
    a character outside the Basic Multilingual Plane, [replaceDigits] does
    not throw: it answers [undefined] when that piece is empty, and
    otherwise the piece with every digit replaced by its English word; the
    answer holds no digit. *)
Theorem replaceDigits_spells_last_piece (s : string) :
  starts_in_plane (last (split_hyphens s) "") = true ->
  replaceDigits s
  = Ok (match last (split_hyphens s) "" with
        | EmptyString => JUndefined
        | _ => JStr (spell_out (last (split_hyphens s) ""))
        end)
  /\ has_digit (spell_out (last (split_hyphens s) "")) = false.
Proof.
  intros _. split.
  - unfold replaceDigits. cbv zeta.
    destruct (last (split_hyphens s) "") as [| c rest]; [reflexivity |].
    unfold first_character, Array_from. cbn [list_ascii_of_string map tl].
    rewrite digitToString_character.
    exact (reduce_spell_out rest (digit_word c)).
  - apply spell_out_no_digit.
Qed.

Lemma replaceDigits_spells_last_piece_witness :
  starts_in_plane (last (split_hyphens "7566b7ca-0372-46c6-9d2c-0e9f") "") = true
  /\ replaceDigits "7566b7ca-0372-46c6-9d2c-0e9f" = Ok (JStr "zeroeninef")
  /\ has_digit "zeroeninef" = false.
Proof.
  split; [reflexivity |].
  apply (replaceDigits_spells_last_piece "7566b7ca-0372-46c6-9d2c-0e9f").
  reflexivity.
Defined.

Example replaceDigits_sample :
  replaceDigits "7566b7ca-0372-46c6-9d2c-0e9f" = Ok (JStr "zeroeninef")
  /\ replaceDigits "7566b7ca-" = Ok JUndefined.
Proof. split; reflexivity. Qed.

(** ** Which field lists get a table *)

(** X5. [createNewTableFromGehlFields] returns a statement exactly when
    the distinct names of the list, in the order of their first
    occurrence, are gender then location, or the eleven fields in the
    order of [allGehlFieldsArray]: repeated fields do not matter, the order
    does. *)
Theorem createNewTableFromGehlFields_Ok_iff
    (study : Study) (tablename : string) (fields : list GehlFields) :
  (exists ddl, createNewTableFromGehlFields study tablename fields = Ok ddl)
  <-> (new_Set (map field_name fields) = map field_name genderLocationArray
       \/ new_Set (map field_name fields) = map field_name allGehlFieldsArray).
Proof.
  destruct (createNewTableFromGehlFields_cases study tablename fields)
    as [[Hs Ht] | [[Hs Ht] | (H1 & H2 & Ht)]]; rewrite Ht.
  - split; [now left | eauto].
  - split; [now right | eauto].
  - split.
    + intros [ddl H]. discriminate.
    + intros [H | H]; contradiction.
Qed.

(** X6. Whatever the pool does, a field list whose set of names is neither
    of the two supported selections gets no table: the statement returned
    is always for gender and location, or for the eleven fields. *)
Theorem createNewTableFromGehlFields_only_supported
    (study : Study) (tablename : string) (fields : list GehlFields) (ddl : string) :
  createNewTableFromGehlFields study tablename fields = Ok ddl ->
  ((forall f, In f fields <-> In f genderLocationArray)
   /\ ddl = genderLocationTable tablename)
  \/ ((forall f, In f fields <-> In f allGehlFieldsArray)
      /\ ddl = allGehlFieldsTable tablename).
Proof.
  intros H.
  destruct (createNewTableFromGehlFields_cases study tablename fields)
    as [[Hs Ht] | [[Hs Ht] | (_ & _ & Ht)]]; rewrite Ht in H;
    [| | discriminate]; injection H as <-.
  - left. split; [now apply same_fields | reflexivity].
  - right. split; [now apply same_fields | reflexivity].
Qed.

Lemma createNewTableFromGehlFields_only_supported_witness :
  createNewTableFromGehlFields sample_study "t" [gender; gender; location]
  = Ok (genderLocationTable "t")
  /\ (((forall f, In f [gender; gender; location] <-> In f genderLocationArray)
       /\ genderLocationTable "t" = genderLocationTable "t")
      \/ ((forall f, In f [gender; gender; location] <-> In f allGehlFieldsArray)
          /\ genderLocationTable "t" = allGehlFieldsTable "t")).
Proof.
  split; [reflexivity |].
  apply (createNewTableFromGehlFields_only_supported
           sample_study "t" [gender; gender; location] (genderLocationTable "t")).
  reflexivity.
Defined.

(** ** The object handed to the encoder *)

Lemma obj_set_fresh (o : Obj) (k : string) (v : JsVal) :
  ~ In k (Object_keys o) -> obj_set o k v = (o ++ [(k, v)])%list.
Proof.
  induction o as [| [k0 v0] o IH]; cbn; [reflexivity |].
  intros H. destruct (String.eqb_spec k0 k) as [-> | Hne].
  - exfalso. apply H. now left.
  - rewrite IH; [reflexivity |]. intros Hin. apply H. now right.
Qed.

Lemma obj_delete_set_same (o : Obj) (k : string) (v : JsVal) :
  obj_delete (obj_set o k v) k = obj_delete o k.
Proof.
  unfold obj_delete. induction o as [| [k0 v0] o IH]; cbn.
  - now rewrite String.eqb_refl.
  - destruct (String.eqb_spec k0 k) as [-> | Hne]; cbn.
    + now rewrite String.eqb_refl.
    + destruct (String.eqb_spec k0 k); [contradiction |]. cbn. now rewrite IH.
Qed.

Lemma obj_get_filter_key (P : string -> bool) (o : Obj) (k : string) :
  obj_get (filter (fun p => P (fst p)) o) k = if P k then obj_get o k else JUndefined.
Proof.
  induction o as [| [k0 v0] o IH]; [now destruct (P k) |].
  cbn [filter fst obj_get].
  destruct (String.eqb_spec k0 k) as [-> | Hne].
  - destruct (P k) eqn:HP.
    + cbn [obj_get]. now rewrite String.eqb_refl.
    + exact IH.
  - destruct (P k0); [| exact IH].
    cbn [obj_get]. destruct (String.eqb_spec k0 k); [contradiction | exact IH].
Qed.

Lemma dataPointForPostgres_app (surveyId : string) (dataPoint : Obj) :
  dataPointForPostgres surveyId dataPoint
  = (deleteNonGehlFields dataPoint
       ++ [("survey_id", JStr surveyId);
           ("data_point_id", obj_get dataPoint "data_point_id")])%list.
Proof.
  unfold dataPointForPostgres.
  assert (H1 : ~ In "survey_id" (Object_keys (deleteNonGehlFields dataPoint))).
  { intros H. apply deleteNonGehlFields_keys in H. discriminate. }
  assert (H2 : ~ In "data_point_id" (Object_keys (deleteNonGehlFields dataPoint))).
  { intros H. apply deleteNonGehlFields_keys in H. discriminate. }
  rewrite (obj_set_fresh _ _ _ H1), obj_set_fresh.
  - now rewrite <- app_assoc.
  - unfold Object_keys in *. rewrite map_app, in_app_iff. cbn.
    intros [H | [H | []]]; [contradiction | discriminate].
Qed.

Lemma filter_all {A : Type} (l : list A) : filter (fun _ => true) l = l.
Proof. induction l as [| a l IH]; [reflexivity | cbn; now rewrite IH]. Qed.

(** X7. [deleteNonGehlFields] is idempotent, and what it returns has only
    Gehl fields as keys, none of them read as [null]. *)
Theorem deleteNonGehlFields_idempotent (o : Obj) :
  deleteNonGehlFields (deleteNonGehlFields o) = deleteNonGehlFields o
  /\ forall k, In k (Object_keys (deleteNonGehlFields o)) ->
       Set_has allGehlFieldsStrings k = true
       /\ obj_get (deleteNonGehlFields o) k = obj_get o k
       /\ obj_get (deleteNonGehlFields o) k <> JNull.
Proof.
  assert (Hkeys : forall k, In k (Object_keys (deleteNonGehlFields o)) ->
            Set_has allGehlFieldsStrings k = true
            /\ obj_get (deleteNonGehlFields o) k = obj_get o k
            /\ obj_get (deleteNonGehlFields o) k <> JNull).
  { intros k Hk. apply deleteNonGehlFields_keys in Hk.
    rewrite deleteNonGehlFields_filter, (obj_get_filter_key (kept o)), Hk.
    unfold kept in Hk. apply andb_prop in Hk. destruct Hk as [Hg Hn].
    repeat split; [exact Hg |]. intros H. rewrite H in Hn. discriminate. }
  split; [| exact Hkeys].
  rewrite (deleteNonGehlFields_filter (deleteNonGehlFields o)).
  rewrite <- (filter_ext_in (fun _ => true)).
  - apply filter_all.
  - intros [k v] Hin. cbn [fst].
    destruct (Hkeys k) as (Hg & _ & Hn).
    + unfold Object_keys. apply in_map_iff. now exists (k, v).
    + unfold kept. rewrite Hg. now destruct (obj_get (deleteNonGehlFields o) k).
Qed.

Lemma survey_id_bound (surveyId : string) (dataPoint : Obj) (r : Insert) :
  transformToPostgresInsert surveyId dataPoint = Ok r ->
  exists acc,
    processKeyAndValues (dataPointForPostgres surveyId dataPoint) = Ok acc
    /\ written acc r
    /\ count_occ string_dec (columns acc) "survey_id" = 1
    /\ bound (columns acc) (parameterBindings acc) (insert_values r)
             "survey_id" (JStr surveyId).
Proof.
  intros H.
  assert (Hin : In ("survey_id", JStr surveyId) (dataPointForPostgres surveyId dataPoint)).
  { rewrite dataPointForPostgres_app. apply in_or_app. right. now left. }
  destruct (entry_bound _ _ _ _ _ H Hin) as (acc & text & Hacc & Hwritten & Htext & Hbound);
    [discriminate |].
  injection Htext as <-. exists acc.
  split; [exact Hacc |]. split; [exact Hwritten |]. split; [| exact Hbound].
  destruct (processKeyAndValues_Ok _ _ Hacc) as (-> & _).
  rewrite dataPointForPostgres_app. unfold Object_keys.
  rewrite map_app, count_occ_app. cbn [map fst count_occ].
  destruct (string_dec "survey_id" "survey_id") as [_ | Hne]; [| contradiction].
  destruct (string_dec "data_point_id" "survey_id") as [Heq | _]; [discriminate |].
  rewrite (proj1 (count_occ_not_In string_dec _ _)); [reflexivity |].
  intros Hk. apply (deleteNonGehlFields_keys dataPoint) in Hk. discriminate.
Qed.

(** X8. The [survey_id] of the raw data point never reaches the statement:
    the encoding is the same whatever the data point says about it, with
    or without the key; and every statement produced has one [survey_id]
    column, bound through its placeholder to the caller's survey id. *)
Theorem transformToPostgresInsert_survey_id_overwritten
    (surveyId : string) (dataPoint : Obj) (v : JsVal) :
  transformToPostgresInsert surveyId (obj_set dataPoint "survey_id" v)
  = transformToPostgresInsert surveyId dataPoint
  /\ transformToPostgresInsert surveyId (obj_delete dataPoint "survey_id")
     = transformToPostgresInsert surveyId dataPoint
  /\ forall r,
       transformToPostgresInsert surveyId (obj_set dataPoint "survey_id" v) = Ok r ->
       exists acc,
         written acc r
         /\ count_occ string_dec (columns acc) "survey_id" = 1
         /\ bound (columns acc) (parameterBindings acc) (insert_values r)
                  "survey_id" (JStr surveyId).
Proof.
  assert (Hdrop : forall o,
            transformToPostgresInsert surveyId o
            = transformToPostgresInsert surveyId (obj_delete o "survey_id")).
  { intros o. apply transformToPostgresInsert_dropped; [reflexivity | discriminate]. }
  split; [| split].
  - rewrite (Hdrop (obj_set dataPoint "survey_id" v)), obj_delete_set_same.
    symmetry. apply Hdrop.
  - symmetry. apply Hdrop.
  - intros r Hr. apply survey_id_bound in Hr.
    destruct Hr as (acc & _ & Hwritten & Hone & Hbound). exists acc. auto.
Qed.

Example survey_id_of_the_data_point_ignored :
  transformToPostgresInsert "survey-1"
    [("gender", JStr "male"); ("survey_id", JStr "survey-2"); ("data_point_id", JStr "p1")]
  = Ok {| query := upsert_query acc_without_unknown_key;
          insert_values := values acc_without_unknown_key |}.
Proof. reflexivity. Qed.

(** ** When a data point encodes, and with which error it does not *)

Lemma is_Ok_reduce {A B : Type} (f : B -> A -> Result B) (g : A -> bool) (l : list A) :
  (forall acc x, In x l -> is_Ok (f acc x) = g x) ->
  forall init, is_Ok (reduce f l init) = forallb g l.
Proof.
  induction l as [| x l IH]; intros H init; [reflexivity |].
  cbn [reduce forallb]. rewrite <- (H init x) by now left.
  destruct (f init x) as [acc |]; cbn [bind is_Ok andb]; [| reflexivity].
  apply IH. intros acc' y Hy. apply H. now right.
Qed.

Lemma contains_null_activities (value : JsVal) :
  existsb contains_null (match value with JArr xs => xs | _ => [value] end)
  = contains_null value.
Proof. destruct value; cbn; try reflexivity. Qed.

(** The value of a Gehl field is produced iff the entry encodes, and the
    error is the one of the field otherwise. *)
Lemma processDataPointToValue_encodable (key : string) (value : JsVal) :
  Set_has validDataPointProperties key = true ->
  key <> "location" ->
  if encodable key value
  then is_Ok (processDataPointToValue key value) = true
  else exists e, processDataPointToValue key value = Throw e /\ entry_error key value e.
Proof.
  intros Hvalid Hloc. unfold encodable, entry_error.
  destruct (String.eqb_spec key "location") as [-> | _]; [contradiction |].
  destruct (String.eqb_spec key "groups") as [-> | Hg].
  { rewrite (processDataPointToValue_label "groups" spec_groups_labels value eq_refl).
    destruct (stored_label spec_groups_labels value); [reflexivity | eauto]. }
  destruct (String.eqb_spec key "age") as [-> | Ha].
  { rewrite (processDataPointToValue_label "age" spec_age_labels value eq_refl).
    destruct (stored_label spec_age_labels value); [reflexivity | eauto]. }
  destruct (String.eqb_spec key "activities") as [-> | Hact].
  { unfold processDataPointToValue. cbn [String.eqb Ascii.eqb Bool.eqb]. cbv zeta.
    pose proof (javascriptArrayToPostgresArray_is_Ok
                  (match value with JArr xs => xs | _ => [value] end)) as H.
    rewrite contains_null_activities in H.
    destruct (javascriptArrayToPostgresArray _) as [s | e] eqn:He; cbn [bind is_Ok] in *.
    - destruct (contains_null value); [discriminate | reflexivity].
    - destruct (contains_null value); [| discriminate]. cbn [negb].
      exists e. split; [reflexivity |].
      eapply javascriptArrayToPostgresArray_Throw_inv, He. }
  unfold processDataPointToValue.
  destruct (String.eqb_spec key "location"); [contradiction |].
  destruct (String.eqb_spec key "groups"); [contradiction |].
  destruct (String.eqb_spec key "age"); [contradiction |].
  destruct (String.eqb_spec key "activities"); [contradiction |].
  now rewrite Hvalid.
Qed.

Lemma step_encodable (acc : Acc) (key : string) (value : JsVal) :
  Set_has validDataPointProperties key = true ->
  if encodable key value
  then is_Ok (processDataPointToPreparedStatement acc (key, value)) = true
  else exists e,
         processDataPointToPreparedStatement acc (key, value) = Throw e
         /\ entry_error key value e.
Proof.
  intros Hvalid. destruct (String.eqb_spec key "location") as [-> | Hloc].
  - unfold encodable, entry_error. cbn [String.eqb Ascii.eqb Bool.eqb].
    destruct (nullish value) eqn:Hn; cbn [negb].
    + exists (TypeError "type"). split; [| reflexivity].
      destruct value; try discriminate; reflexivity.
    + unfold processDataPointToPreparedStatement, convertKeyToParamterBinding,
        processDataPointToValue.
      cbn [String.eqb Ascii.eqb Bool.eqb]. cbv zeta.
      rewrite (is_Point_has_type_Point _ Hn). cbn [bind].
      destruct (has_type_Point value); cbn [bind]; [reflexivity |].
      now rewrite !(get_prop_property _ _ Hn).
  - pose proof (processDataPointToValue_encodable key value Hvalid Hloc) as H.
    unfold processDataPointToPreparedStatement.
    rewrite convertKeyToParamterBinding_plain by assumption. cbn [bind].
    destruct (encodable key value).
    + destruct (processDataPointToValue key value); [reflexivity | discriminate].
    + destruct H as (e & -> & He). exists e. now split.
Qed.

Lemma deleteNonGehlFields_valid (dataPoint : Obj) (p : string * JsVal) :
  In p (deleteNonGehlFields dataPoint) ->
  Set_has validDataPointProperties (fst p) = true.
Proof.
  intros Hin. apply Gehl_field_valid.
  assert (Hk : kept dataPoint (fst p) = true).
  { apply deleteNonGehlFields_keys. unfold Object_keys. now apply in_map. }
  unfold kept in Hk. now apply andb_prop in Hk.
Qed.

(** The last two steps, on [survey_id] and [data_point_id], always
    succeed. *)
Lemma reduce_identifiers (surveyId : string) (data_point_id : JsVal) (acc : Acc) :
  reduce processDataPointToPreparedStatement
    [("survey_id", JStr surveyId); ("data_point_id", data_point_id)] acc
  = Ok {| columns := (columns acc ++ ["survey_id"; "data_point_id"])%list;
          values := (values acc ++ [JStr surveyId; JStr (ToString data_point_id)])%list;
          parameterBindings :=
            (parameterBindings acc
               ++ [("$" ++ nat_to_string (index acc))%string;
                   ("$" ++ nat_to_string (index acc + 1))%string])%list;
          index := index acc + 1 + 1 |}.
Proof.
  cbn [reduce]. unfold processDataPointToPreparedStatement at 2.
  cbn [convertKeyToParamterBinding processDataPointToValue String.eqb Ascii.eqb
       Bool.eqb bind validDataPointProperties].
  cbn. now rewrite <- !app_assoc.
Qed.

Lemma processKeyAndValues_dataPointForPostgres (surveyId : string) (dataPoint : Obj) :
  processKeyAndValues (dataPointForPostgres surveyId dataPoint)
  = bind (reduce processDataPointToPreparedStatement
            (deleteNonGehlFields dataPoint) initialAcc)
         (reduce processDataPointToPreparedStatement
            [("survey_id", JStr surveyId);
             ("data_point_id", obj_get dataPoint "data_point_id")]).
Proof.
  unfold processKeyAndValues. now rewrite dataPointForPostgres_app, reduce_app.
Qed.

(** X9. A raw data point whose kept values and whose [data_point_id] can
    be written into a text encodes exactly when every Gehl field it keeps
    encodes: its location is not [undefined], its groups and age are
    labels of their tables, and its activities hold no [null]. *)
Theorem transformToPostgresInsert_Ok_iff (surveyId : string) (dataPoint : Obj) :
  forallb (fun p => prints (fst p) (snd p)) (deleteNonGehlFields dataPoint) = true ->
  interpolable (obj_get dataPoint "data_point_id") = true ->
  is_Ok (transformToPostgresInsert surveyId dataPoint)
  = forallb (fun p => encodable (fst p) (snd p)) (deleteNonGehlFields dataPoint).
Proof.
  intros _ _. unfold transformToPostgresInsert.
  rewrite (is_Ok_bind_Ok _ (fun acc => {| query := upsert_query acc;
                                          insert_values := values acc |})).
  rewrite processKeyAndValues_dataPointForPostgres.
  rewrite <- (is_Ok_reduce processDataPointToPreparedStatement
                (fun p => encodable (fst p) (snd p))
                (deleteNonGehlFields dataPoint)) with (init := initialAcc).
  - destruct (reduce _ (deleteNonGehlFields dataPoint) initialAcc) as [acc |];
      cbn [bind is_Ok]; [| reflexivity].
    now rewrite reduce_identifiers.
  - intros acc [k v] Hin. cbn [fst snd].
    pose proof (step_encodable acc k v (deleteNonGehlFields_valid _ _ Hin)) as H.
    destruct (encodable k v); [exact H |].
    destruct H as (e & -> & _). reflexivity.
Qed.

Lemma transformToPostgresInsert_Ok_iff_witness :
  forallb (fun p => prints (fst p) (snd p)) (deleteNonGehlFields point_with_two_faults)
  = true
  /\ interpolable (obj_get point_with_two_faults "data_point_id") = true
  /\ is_Ok (transformToPostgresInsert "survey-1" point_with_two_faults) = false
  /\ is_Ok (transformToPostgresInsert "survey-1" sample_point) = true.
Proof.
  split; [reflexivity |]. split; [reflexivity |]. split.
  - apply (transformToPostgresInsert_Ok_iff "survey-1" point_with_two_faults);
      reflexivity.
  - reflexivity.
Defined.

(** X10. The error of a rejected data point is the error of the first
    kept field that does not encode, when the values up to that field can
    be written into a text: a [TypeError] for the location, the validation
    error with the value for groups and age, the error for [null] for the
    activities. *)
Theorem transformToPostgresInsert_first_error
    (surveyId : string) (dataPoint : Obj) (before after : Obj)
    (key : string) (value : JsVal) :
  deleteNonGehlFields dataPoint = (before ++ (key, value) :: after)%list ->
  forallb (fun p => prints (fst p) (snd p)) before = true ->
  prints key value = true ->
  forallb (fun p => encodable (fst p) (snd p)) before = true ->
  encodable key value = false ->
  exists e,
    transformToPostgresInsert surveyId dataPoint = Throw e
    /\ entry_error key value e.
Proof.
  intros Hsplit _ _ Hbefore Hkey.
  assert (Hvalid : forall p, In p (before ++ (key, value) :: after) ->
                     Set_has validDataPointProperties (fst p) = true).
  { intros p Hp. rewrite <- Hsplit in Hp. now apply deleteNonGehlFields_valid in Hp. }
  unfold transformToPostgresInsert.
  rewrite processKeyAndValues_dataPointForPostgres, Hsplit, reduce_app.
  assert (Hok : is_Ok (reduce processDataPointToPreparedStatement before initialAcc)
                = true).
  { rewrite <- Hbefore. apply is_Ok_reduce.
    intros acc [k v] Hin. cbn [fst snd].
    pose proof (step_encodable acc k v) as H.
    destruct (encodable k v).
    - apply H. apply (Hvalid (k, v)). apply in_or_app. now left.
    - destruct H as (e & -> & _); [| reflexivity].
      apply (Hvalid (k, v)). apply in_or_app. now left. }
  destruct (reduce processDataPointToPreparedStatement before initialAcc) as [acc |];
    [| discriminate].
  cbn [bind reduce].
  pose proof (step_encodable acc key value) as H. rewrite Hkey in H.
  destruct H as (e & -> & He).
  - apply (Hvalid (key, value)). apply in_or_app. right. now left.
  - exists e. now split.
Qed.

Lemma transformToPostgresInsert_first_error_witness :
  deleteNonGehlFields point_with_two_faults
  = ([("gender", JStr "male")] ++ ("age", JStr "teen") :: [("groups", JStr "mob")])%list
  /\ prints "gender" (JStr "male") = true
  /\ prints "age" (JStr "teen") = true
  /\ exists e,
       transformToPostgresInsert "survey-1" point_with_two_faults = Throw e
       /\ entry_error "age" (JStr "teen") e.
Proof.
  split; [reflexivity |]. split; [reflexivity |]. split; [reflexivity |].
  apply (transformToPostgresInsert_first_error "survey-1" point_with_two_faults
           [("gender", JStr "male")] [("groups", JStr "mob")] "age" (JStr "teen"));
    reflexivity.
Defined.

(** X11. Every statement produced is the upsert of its columns and
    bindings, with its values; the columns are the kept Gehl fields in the
    order of the data point, then [survey_id], then [data_point_id]; the
    last two bound values are the caller's survey id and the text of the
    data point's [data_point_id] (the text ["undefined"] when it has none),
    bound to the last two placeholders. *)
Theorem transformToPostgresInsert_identifiers_last
    (surveyId : string) (dataPoint : Obj) (r : Insert) :
  transformToPostgresInsert surveyId dataPoint = Ok r ->
  exists fields acc,
    reduce processDataPointToPreparedStatement (deleteNonGehlFields dataPoint) initialAcc
    = Ok fields
    /\ processKeyAndValues (dataPointForPostgres surveyId dataPoint) = Ok acc
    /\ query r
       = upsert_text
           (String.concat ", " (Object_keys (deleteNonGehlFields dataPoint)
                                  ++ ["survey_id"; "data_point_id"])%list)
           (String.concat ", "
              (parameterBindings fields
                 ++ [("$" ++ nat_to_string (length (values fields) + 1))%string;
                     ("$" ++ nat_to_string (length (values fields) + 2))%string])%list)
    /\ columns acc
       = (Object_keys (deleteNonGehlFields dataPoint)
            ++ ["survey_id"; "data_point_id"])%list
    /\ insert_values r
       = (values fields
            ++ [JStr surveyId;
                JStr (ToString (obj_get dataPoint "data_point_id"))])%list
    /\ parameterBindings acc
       = (parameterBindings fields
            ++ [("$" ++ nat_to_string (length (values fields) + 1))%string;
                ("$" ++ nat_to_string (length (values fields) + 2))%string])%list.
Proof.
  intros H. apply transformToPostgresInsert_written in H.
  destruct H as (acc & Hacc & Hquery & Hvalues).
  pose proof Hacc as Hacc'.
  rewrite processKeyAndValues_dataPointForPostgres in Hacc'.
  destruct (reduce processDataPointToPreparedStatement
              (deleteNonGehlFields dataPoint) initialAcc) as [fields |] eqn:Hfields;
    [| discriminate].
  cbn [bind] in Hacc'. rewrite reduce_identifiers in Hacc'. injection Hacc' as <-.
  pose proof (reduce_invariant _ aligned aligned_step _ _ _ aligned_initialAcc Hfields)
    as [_ Hindex].
  apply reduce_columns in Hfields. destruct Hfields as (Hcols & _).
  exists fields. eexists. split; [reflexivity |]. split; [exact Hacc |].
  cbn [columns values parameterBindings] in *.
  rewrite Hquery, Hvalues, Hcols, Hindex. cbn [app].
  replace (S (length (values fields))) with (length (values fields) + 1) by lia.
  replace (length (values fields) + 1 + 1) with (length (values fields) + 2) by lia.
  repeat split.
Qed.

Lemma transformToPostgresInsert_identifiers_last_witness :
  exists r,
    transformToPostgresInsert "survey-1" point_without_id = Ok r
    /\ exists fields acc,
         reduce processDataPointToPreparedStatement
           (deleteNonGehlFields point_without_id) initialAcc = Ok fields
         /\ processKeyAndValues (dataPointForPostgres "survey-1" point_without_id)
            = Ok acc
         /\ query r
            = upsert_text
                (String.concat ", " (Object_keys (deleteNonGehlFields point_without_id)
                                       ++ ["survey_id"; "data_point_id"])%list)
                (String.concat ", "
                   (parameterBindings fields
                      ++ [("$" ++ nat_to_string (length (values fields) + 1))%string;
                          ("$" ++ nat_to_string (length (values fields) + 2))%string])%list)
         /\ columns acc
            = (Object_keys (deleteNonGehlFields point_without_id)
                 ++ ["survey_id"; "data_point_id"])%list
         /\ insert_values r
            = (values fields
                 ++ [JStr "survey-1";
                     JStr (ToString (obj_get point_without_id "data_point_id"))])%list
         /\ parameterBindings acc
            = (parameterBindings fields
                 ++ [("$" ++ nat_to_string (length (values fields) + 1))%string;
                     ("$" ++ nat_to_string (length (values fields) + 2))%string])%list.
Proof.
  eexists. split; [reflexivity |].
  eapply (transformToPostgresInsert_identifiers_last "survey-1" point_without_id).
  reflexivity.
Defined.

Example point_without_id_statement :
  transformToPostgresInsert "survey-1" point_without_id
  = Ok {| query := upsert_text "gender, survey_id, data_point_id" "$1, $2, $3";
          insert_values := [JStr "female"; JStr "survey-1"; JStr "undefined"] |}.
Proof. reflexivity. Qed.

(** ** Array literals, further *)

(** X12. A list whose objects can be written into a text converts to an
    array literal exactly when it holds no [null] at any depth: numbers,
    booleans, such objects and [undefined] never make the conversion
    throw. *)
Theorem javascriptArrayToPostgresArray_converts_iff (xs : list JsVal) :
  forallb interpolable xs = true ->
  (exists literal, javascriptArrayToPostgresArray xs = Ok literal)
  <-> existsb contains_null xs = false.
Proof.
  intros _.
  pose proof (javascriptArrayToPostgresArray_is_Ok xs) as H.
  destruct (javascriptArrayToPostgresArray xs) as [s | e]; cbn [is_Ok] in H; split.
  - intros _. destruct (existsb contains_null xs); [discriminate | reflexivity].
  - eauto.
  - intros [s H']. discriminate.
  - intros H'. rewrite H' in H. discriminate.
Qed.

Lemma javascriptArrayToPostgresArray_converts_iff_witness :
  forallb interpolable [JNum "3"; JObj [("a", JNum "1")]; JUndefined; JArr [JBool true]]
  = true
  /\ ((exists literal,
         javascriptArrayToPostgresArray
           [JNum "3"; JObj [("a", JNum "1")]; JUndefined; JArr [JBool true]]
         = Ok literal)
      <-> existsb contains_null
            [JNum "3"; JObj [("a", JNum "1")]; JUndefined; JArr [JBool true]]
          = false).
Proof.
  split; [reflexivity |].
  apply (javascriptArrayToPostgresArray_converts_iff
           [JNum "3"; JObj [("a", JNum "1")]; JUndefined; JArr [JBool true]]).
  reflexivity.
Defined.

Example javascriptArrayToPostgresArray_mixed :
  javascriptArrayToPostgresArray
    [JNum "3"; JObj [("a", JNum "1")]; JUndefined; JArr [JBool true]]
  = Ok "{3, [object Object], , {true}}".
Proof. reflexivity. Qed.

Lemma postgresArrayElement_context (xs ys : list JsVal) (x y : JsVal) :
  postgresArrayElement xs x = Ok y -> postgresArrayElement ys x = Ok y.
Proof. destruct x; cbn; try discriminate; auto. Qed.

Lemma mapM_postgresArrayElement_context (xs ys l : list JsVal) :
  forall es,
    mapM (postgresArrayElement xs) l = Ok es ->
    mapM (postgresArrayElement ys) l = Ok es.
Proof.
  induction l as [| x l IH]; intros es; cbn [mapM]; [auto |].
  destruct (postgresArrayElement xs x) as [y |] eqn:Hx; cbn [bind]; [| discriminate].
  rewrite (postgresArrayElement_context _ ys _ _ Hx). cbn [bind].
  destruct (mapM (postgresArrayElement xs) l) as [es' |]; cbn [bind]; [| discriminate].
  now rewrite (IH es' eq_refl).
Qed.

Lemma Array_join_split (a b : string) (es : list JsVal) :
  Array_join ", " (JStr (a ++ ", " ++ b) :: es)
  = Array_join ", " (JStr a :: JStr b :: es).
Proof.
  unfold Array_join. cbn [map join_element ToString].
  destruct (map join_element es) as [| e rest]; cbn [String.concat].
  - reflexivity.
  - now rewrite !string_app_assoc.
Qed.

(** X13. Elements are written into the literal as they are, without
    quotes or escapes: one string element with a comma and a space in it
    gives the literal of the two elements it separates. *)
Theorem javascriptArrayToPostgresArray_unquoted
    (a b : string) (rest : list JsVal) (literal : string) :
  javascriptArrayToPostgresArray (JStr (a ++ ", " ++ b) :: rest) = Ok literal ->
  javascriptArrayToPostgresArray (JStr a :: JStr b :: rest) = Ok literal.
Proof.
  unfold javascriptArrayToPostgresArray. cbn [mapM postgresArrayElement bind].
  destruct (mapM (postgresArrayElement (JStr (a ++ ", " ++ b) :: rest)) rest)
    as [es |] eqn:Hes; cbn [bind]; [| discriminate].
  rewrite (mapM_postgresArrayElement_context _ (JStr a :: JStr b :: rest) _ _ Hes).
  cbn [bind]. intros [= <-].
  now rewrite <- (Array_join_split a b es).
Qed.

Lemma javascriptArrayToPostgresArray_unquoted_witness :
  javascriptArrayToPostgresArray [JStr ("commercial" ++ ", " ++ "consuming"); JNum "3"]
  = Ok "{commercial, consuming, 3}"
  /\ javascriptArrayToPostgresArray [JStr "commercial"; JStr "consuming"; JNum "3"]
     = Ok "{commercial, consuming, 3}".
Proof.
  split; [reflexivity |].
  apply (javascriptArrayToPostgresArray_unquoted "commercial" "consuming" [JNum "3"]).
  reflexivity.
Defined.

(** ** Statements the gateway issues *)

Section Issued.
Context {DB : Type}.
Variable pool_query : DB -> string -> list JsVal -> DB * Result QueryResult.

Lemma logged_query (log : list Statement) (db : DB) (text : string)
    (values : list JsVal) :
  logged pool_query (log, db) text values
  = ((log ++ [(text, values)])%list, fst (pool_query db text values),
     snd (pool_query db text values)).
Proof. unfold logged. cbn [fst snd]. now destruct (pool_query db text values). Qed.

(** The lookup of the table of a survey issues its one SELECT, whatever
    the answer. *)
Lemma getTablenameForSurveyId_logged (surveyId : string) (log : list Statement)
    (db : DB) :
  getTablenameForSurveyId (logged pool_query) surveyId (log, db)
  = ((log ++ [(tablename_query surveyId, [])])%list,
     fst (getTablenameForSurveyId pool_query surveyId db),
     snd (getTablenameForSurveyId pool_query surveyId db)).
Proof.
  unfold getTablenameForSurveyId, await. rewrite logged_query.
  destruct (pool_query db (tablename_query surveyId) []) as [db1 [res | e]];
    cbn [fst snd]; [| reflexivity].
  destruct (Nat.eqb (rowCount res) 1); [| reflexivity].
  now destruct (rows res).
Qed.
End Issued.

(** X14. [createStudy] issues no statement at all for an unsupported field
    list; otherwise it issues the metadata INSERT, and after it the CREATE
    TABLE only if the INSERT resolved, and nothing else: no statement takes
    the metadata back when the CREATE TABLE is rejected. It resolves
    exactly when the field list is supported and both statements
    resolve. *)
Theorem createStudy_statements
    (DB : Type) (pool_query : DB -> string -> list JsVal -> DB * Result QueryResult)
    (study : Study) (title studyMap : JsVal) (fields : list GehlFields) (db : DB) :
  let insert :=
    study_metadata_query study title studyMap fields
      (studyIdToTablename (studyId study)) in
  issued (createStudy (logged pool_query) study title studyMap fields ([], db))
  = match createNewTableFromGehlFields study (studyIdToTablename (studyId study)) fields
    with
    | Throw _ => []
    | Ok createTable =>
        (insert, [])
          :: (if is_Ok (snd (pool_query db insert [])) then [(createTable, [])] else [])
    end
  /\ is_Ok (snd (createStudy pool_query study title studyMap fields db))
     = match createNewTableFromGehlFields study (studyIdToTablename (studyId study))
               fields
       with
       | Throw _ => false
       | Ok createTable =>
           is_Ok (snd (pool_query db insert []))
           && is_Ok (snd (pool_query (fst (pool_query db insert [])) createTable []))
       end.
Proof.
  cbv zeta. unfold createStudy, issued, await, settled, resolve.
  destruct (createNewTableFromGehlFields study (studyIdToTablename (studyId study)) fields)
    as [createTable | e]; [| now split].
  rewrite logged_query.
  destruct (pool_query db _ []) as [db1 [r1 | e1]]; cbn [fst snd is_Ok andb];
    [| now split].
  rewrite logged_query.
  now destruct (pool_query db1 createTable []) as [db2 [r2 | e2]].
Qed.

(** X15. [addDataPointToSurveyWithStudyId] sends nothing and rejects with
    the error of the encoder when the data point does not encode;
    otherwise it sends the one upsert, into the table whose name
    [studyIdToTablename] gives for the study, with the encoder's values.
    The [survey_id] it first writes into the data point changes nothing. *)
Theorem addDataPointToSurveyWithStudyId_statement
    (DB : Type) (pool_query : DB -> string -> list JsVal -> DB * Result QueryResult)
    (studyId surveyId : string) (dataPoint : Obj) (db : DB) :
  addDataPointToSurveyWithStudyId pool_query studyId surveyId dataPoint db
  = match transformToPostgresInsert surveyId dataPoint with
    | Throw e => (db, Throw e)
    | Ok r =>
        pool_query db
          ("INSERT INTO " ++ studyIdToTablename studyId ++ LF ++ indent19 ++ query r)
          (insert_values r)
    end
  /\ issued (addDataPointToSurveyWithStudyId (logged pool_query) studyId surveyId
               dataPoint ([], db))
     = match transformToPostgresInsert surveyId dataPoint with
       | Throw e => []
       | Ok r =>
           [("INSERT INTO " ++ studyIdToTablename studyId ++ LF ++ indent19 ++ query r,
             insert_values r)]
       end.
Proof.
  assert (Hsame : transformToPostgresInsert surveyId
                    (obj_set dataPoint "survey_id" (JStr surveyId))
                  = transformToPostgresInsert surveyId dataPoint).
  { rewrite (transformToPostgresInsert_dropped surveyId
               (obj_set dataPoint "survey_id" (JStr surveyId)) "survey_id");
      [| reflexivity | discriminate].
    rewrite obj_delete_set_same. symmetry.
    apply transformToPostgresInsert_dropped; [reflexivity | discriminate]. }
  unfold addDataPointToSurveyWithStudyId, issued, await, settled. rewrite Hsame.
  destruct (transformToPostgresInsert surveyId dataPoint) as [r | e]; [| now split].
  split; [reflexivity |]. now rewrite logged_query.
Qed.

(** X16. [addDataPointToSurveyNoStudyId] always issues the lookup of the
    survey's table first, and the upsert after it only if the lookup gave
    a table and the data point encodes; a data point that does not encode
    costs the lookup and nothing more. *)
Theorem addDataPointToSurveyNoStudyId_statements
    (DB : Type) (pool_query : DB -> string -> list JsVal -> DB * Result QueryResult)
    (surveyId : string) (dataPoint : Obj) (db : DB) :
  issued (addDataPointToSurveyNoStudyId (logged pool_query) surveyId dataPoint ([], db))
  = (tablename_query surveyId, [])
      :: match snd (getTablenameForSurveyId pool_query surveyId db),
               transformToPostgresInsert surveyId dataPoint
         with
         | Ok tablename, Ok r =>
             [(insert_query tablename (query r), insert_values r)]
         | _, _ => []
         end.
Proof.
  assert (Hsame : transformToPostgresInsert surveyId
                    (obj_set dataPoint "survey_id" (JStr surveyId))
                  = transformToPostgresInsert surveyId dataPoint).
  { rewrite (transformToPostgresInsert_dropped surveyId
               (obj_set dataPoint "survey_id" (JStr surveyId)) "survey_id");
      [| reflexivity | discriminate].
    rewrite obj_delete_set_same. symmetry.
    apply transformToPostgresInsert_dropped; [reflexivity | discriminate]. }
  unfold addDataPointToSurveyNoStudyId, issued, await at 1.
  rewrite getTablenameForSurveyId_logged, Hsame.
  destruct (getTablenameForSurveyId pool_query surveyId db) as [db1 [tablename | e]];
    cbn [fst snd]; [| reflexivity].
  unfold await, settled.
  destruct (transformToPostgresInsert surveyId dataPoint) as [r | e]; [| reflexivity].
  now rewrite logged_query.
Qed.


(** ** Granting access to a study *)

(** X18. [giveUserStudyAccess] issues its INSERT once when it resolves or
    is rejected with anything but a foreign key violation; after a foreign
    key violation it issues the INSERT of the user, and, only if that
    resolved, the first INSERT once more. A second violation is not
    retried, and a user is created in no other case. *)
Theorem giveUserStudyAccess_statements
    (DB : Type) (pool_query : DB -> string -> list JsVal -> DB * Result QueryResult)
    (is_foreign_key_violation : JsError -> bool)
    (newUserId userEmail studyId : string) (db : DB) :
  let grant := surveyors_query userEmail studyId in
  let first := pool_query db grant [] in
  issued (giveUserStudyAccess (logged pool_query) is_foreign_key_violation
            newUserId userEmail studyId ([], db))
  = (grant, [])
      :: match snd first with
         | Ok _ => []
         | Throw error =>
             if is_foreign_key_violation error then
               (user_insert_query newUserId userEmail, [])
                 :: (if is_Ok (snd (pool_query (fst first)
                                      (user_insert_query newUserId userEmail) []))
                     then [(grant, [])] else [])
             else []
         end.
Proof.
  cbv zeta. unfold giveUserStudyAccess, issued, try_catch, await, resolve, reject.
  rewrite logged_query.
  destruct (pool_query db (surveyors_query userEmail studyId) []) as [db1 [r1 | e1]];
    cbn [fst snd]; [reflexivity |].
  destruct (is_foreign_key_violation e1); [| reflexivity].
  unfold createUserFromEmail, await, resolve. rewrite logged_query.
  destruct (pool_query db1 (user_insert_query newUserId userEmail) [])
    as [db2 [r2 | e2]]; cbn [fst snd is_Ok]; [| reflexivity].
  rewrite logged_query.
  now destruct (pool_query db2 (surveyors_query userEmail studyId) [])
    as [db3 [r3 | e3]].
Qed.

(** X19. When [giveUserStudyAccess] resolves with a user id, that id is
    the generated one, the first INSERT was rejected with a foreign key
    violation and the INSERT of the user resolved; when it resolves
    without one, the first INSERT resolved and the database is as that
    INSERT left it. *)
Theorem giveUserStudyAccess_resolved
    (DB : Type) (pool_query : DB -> string -> list JsVal -> DB * Result QueryResult)
    (is_foreign_key_violation : JsError -> bool)
    (newUserId userEmail studyId : string) (db db' : DB)
    (pgRes : QueryResult) (created : option string) :
  giveUserStudyAccess pool_query is_foreign_key_violation newUserId userEmail studyId db
  = (db', Ok (pgRes, created)) ->
  let grant := surveyors_query userEmail studyId in
  match created with
  | None => pool_query db grant [] = (db', Ok pgRes)
  | Some userId =>
      userId = newUserId
      /\ exists db1 error db2 inserted,
           pool_query db grant [] = (db1, Throw error)
           /\ is_foreign_key_violation error = true
           /\ pool_query db1 (user_insert_query newUserId userEmail) []
              = (db2, Ok inserted)
           /\ pool_query db2 grant [] = (db', Ok pgRes)
  end.
Proof.
  cbv zeta. unfold giveUserStudyAccess, try_catch, await, resolve, reject.
  destruct (pool_query db (surveyors_query userEmail studyId) []) as [db1 [r1 | e1]]
    eqn:H1.
  - intros [= <- <- <-]. reflexivity.
  - destruct (is_foreign_key_violation e1) eqn:Hfk; [| discriminate].
    unfold createUserFromEmail, await, resolve.
    destruct (pool_query db1 (user_insert_query newUserId userEmail) [])
      as [db2 [r2 | e2]] eqn:H2; [| discriminate].
    destruct (pool_query db2 (surveyors_query userEmail studyId) [])
      as [db3 [r3 | e3]] eqn:H3; [| discriminate].
    intros [= <- <- <-]. split; [reflexivity |].
    exists db1, e1, db2, r2. auto.
Qed.

(** ** Locations, surveyors, listings, surveys *)

(** X20. [createLocation] never rejects: when the pool rejects the INSERT
    the error is swallowed and the call resolves to [undefined]. *)
Theorem createLocation_never_rejects
    (DB : Type) (pool_query : DB -> string -> list JsVal -> DB * Result QueryResult)
    (location : Obj) (db : DB) :
  createLocation pool_query location db
  = (fst (pool_query db (location_query location) []),
     Ok (match snd (pool_query db (location_query location) []) with
         | Ok res => Some res
         | Throw _ => None
         end))
  /\ is_Throw (snd (createLocation pool_query location db)) = false.
Proof.
  unfold createLocation, try_catch, await, resolve.
  now destruct (pool_query db (location_query location) []) as [db1 [res | e]].
Qed.

(** X21. [checkUserIdIsSurveyor] answers [true] whenever the pool answers
    its SELECT with the command tag [SELECT], whatever the number of rows:
    also when no survey of the user matches. *)
Theorem checkUserIdIsSurveyor_true_on_SELECT
    (DB : Type) (pool_query : DB -> string -> list JsVal -> DB * Result QueryResult)
    (userId surveyId : string) (db db' : DB) (res : QueryResult) :
  pool_query db surveyor_query [JStr userId; JStr surveyId] = (db', Ok res) ->
  command res = "SELECT" ->
  checkUserIdIsSurveyor pool_query userId surveyId db = (db', Ok true).
Proof.
  intros Hq Hc. unfold checkUserIdIsSurveyor, await, resolve.
  now rewrite Hq, Hc.
Qed.

Lemma giveUserStudyAccess_resolved_witness :
  giveUserStudyAccess access_pool code_23503 "u-1" "a@b.c" "study-1" []
  = ([user_insert_query "u-1" "a@b.c"],
     Ok ({| command := "INSERT"; rowCount := 1; rows := [] |}, Some "u-1"))
  /\ "u-1" = "u-1"
  /\ exists db1 error db2 inserted,
       access_pool [] (surveyors_query "a@b.c" "study-1") [] = (db1, Throw error)
       /\ code_23503 error = true
       /\ access_pool db1 (user_insert_query "u-1" "a@b.c") [] = (db2, Ok inserted)
       /\ access_pool db2 (surveyors_query "a@b.c" "study-1") []
          = ([user_insert_query "u-1" "a@b.c"],
             Ok {| command := "INSERT"; rowCount := 1; rows := [] |}).
Proof.
  split; [reflexivity |].
  apply (giveUserStudyAccess_resolved (list string) access_pool code_23503
           "u-1" "a@b.c" "study-1" [] [user_insert_query "u-1" "a@b.c"]
           {| command := "INSERT"; rowCount := 1; rows := [] |} (Some "u-1")).
  reflexivity.
Defined.

Lemma checkUserIdIsSurveyor_true_on_SELECT_witness :
  no_rows_pool tt surveyor_query [JStr "u-1"; JStr "survey-1"]
  = (tt, Ok {| command := "SELECT"; rowCount := 0; rows := [] |})
  /\ checkUserIdIsSurveyor no_rows_pool "u-1" "survey-1" tt = (tt, Ok true).
Proof.
  split; [reflexivity |].
  apply (checkUserIdIsSurveyor_true_on_SELECT unit no_rows_pool "u-1" "survey-1" tt tt
           {| command := "SELECT"; rowCount := 0; rows := [] |}); reflexivity.
Defined.

Lemma obj_get_set_same (o : Obj) (k : string) (v : JsVal) :
  obj_get (obj_set o k v) k = v.
Proof.
  induction o as [| [k0 v0] o IH]; cbn.
  - now rewrite String.eqb_refl.
  - destruct (String.eqb_spec k0 k) as [-> | Hne]; cbn.
    + now rewrite String.eqb_refl.
    + destruct (String.eqb_spec k0 k); [contradiction | exact IH].
Qed.

Lemma Object_keys_delete (o : Obj) (k k' : string) :
  In k' (Object_keys (obj_delete o k)) -> k' <> k.
Proof.
  unfold Object_keys, obj_delete. intros H. apply in_map_iff in H.
  destruct H as ([k0 v0] & <- & Hin). apply filter_In in Hin.
  destruct Hin as [_ Hne]. cbn [fst] in *.
  destruct (String.eqb_spec k0 k); [discriminate | assumption].
Qed.

Lemma rename_loc_listed_as (row : Obj) : listed_as row (rename_loc row).
Proof.
  unfold listed_as, rename_loc. cbv zeta. split; [apply obj_get_set_same |]. split.
  - intros H. apply Object_keys_set in H. destruct H as [H | H]; [| discriminate].
    now apply Object_keys_delete in H.
  - intros k Hloc Hlocation.
    rewrite obj_get_set_ne by congruence. apply obj_get_delete_ne. congruence.
Qed.

(** X22. [retrieveDataPointsForSurvey] answers one object per row of the
    table, in the order of the rows: the row's [loc] under the key
    [location], no key [loc], and every other column as it was. Its SELECT
    names the table only: the survey id is not part of it. *)
Theorem retrieveDataPointsForSurvey_rows
    (DB : Type) (pool_query : DB -> string -> list JsVal -> DB * Result QueryResult)
    (surveyId : string) (db db1 db2 : DB) (tablename : JsVal) (res : QueryResult) :
  getTablenameForSurveyId pool_query surveyId db = (db1, Ok tablename) ->
  pool_query db1 (data_points_query tablename) [] = (db2, Ok res) ->
  exists listed,
    retrieveDataPointsForSurvey pool_query surveyId db = (db2, Ok listed)
    /\ Forall2 listed_as (rows res) listed.
Proof.
  intros Ht Hq. exists (map rename_loc (rows res)). split.
  - unfold retrieveDataPointsForSurvey, await at 1. rewrite Ht.
    unfold await, resolve. now rewrite Hq.
  - induction (rows res) as [| row l IH]; cbn [map]; constructor;
      [apply rename_loc_listed_as | exact IH].
Qed.

Lemma retrieveDataPointsForSurvey_rows_witness :
  getTablenameForSurveyId listing_pool "survey-1" stored_rows
  = (stored_rows, Ok (JStr "data_collection.study_a1"))
  /\ exists listed,
       retrieveDataPointsForSurvey listing_pool "survey-1" stored_rows
       = (stored_rows, Ok listed)
       /\ Forall2 listed_as stored_rows listed.
Proof.
  split; [reflexivity |].
  apply (retrieveDataPointsForSurvey_rows (list Obj) listing_pool "survey-1"
           stored_rows stored_rows stored_rows (JStr "data_collection.study_a1")
           {| command := "SELECT"; rowCount := 1; rows := stored_rows |});
    reflexivity.
Defined.

(** X23. [createNewSurveyForStudy] hands the pool a statement with as many
    placeholders as values: the eight properties of the survey, and the
    [locationId] as a ninth exactly when it is truthy; an empty or missing
    [locationId] is left out of the statement and of the values alike. *)
Theorem createNewSurveyForStudy_aligned
    (DB : Type) (pool_query : DB -> string -> list JsVal -> DB * Result QueryResult)
    (survey : Obj) (db : DB) :
  exists text values,
    createNewSurveyForStudy pool_query survey db = pool_query db text values
    /\ placeholders text = length values
    /\ values
       = (map (obj_get survey)
              ["studyId"; "surveyId"; "title"; "startDate"; "endDate";
               "representation"; "method"; "userEmail"]
            ++ (if truthy (obj_get survey "locationId")
                then [obj_get survey "locationId"] else []))%list.
Proof.
  unfold createNewSurveyForStudy, new_survey_statement, joinSurveyWithUserEmailCTE.
  cbv zeta.
  destruct (truthy (obj_get survey "locationId")); eexists; eexists;
    (split; [reflexivity |]); split; reflexivity.
Qed.

(** ** Bound values *)

Lemma reduce_invariant_In {A B : Type} (f : B -> A -> Result B) (P : B -> Prop)
    (l : list A) :
  (forall acc x acc', In x l -> P acc -> f acc x = Ok acc' -> P acc') ->
  forall init final, P init -> reduce f l init = Ok final -> P final.
Proof.
  induction l as [| x l IH]; intros Hstep init final Hinit H; cbn [reduce] in H.
  - now injection H as <-.
  - destruct (f init x) as [acc |] eqn:Hf; cbn [bind] in H; [| discriminate].
    eapply IH; [| eapply Hstep; [now left | eassumption | eassumption] | exact H].
    intros acc0 y acc' Hy. apply Hstep. now right.
Qed.

Lemma step_values (dataPoint : Obj) (acc acc' : Acc) (key : string) (value : JsVal) :
  (key = "location" -> In ("location", value) dataPoint) ->
  Forall (text_or_coordinate dataPoint) (values acc) ->
  processDataPointToPreparedStatement acc (key, value) = Ok acc' ->
  Forall (text_or_coordinate dataPoint) (values acc').
Proof.
  intros Hin Hacc. unfold processDataPointToPreparedStatement.
  destruct (String.eqb_spec key "location") as [-> | Hne].
  - destruct (nullish value) eqn:Hn.
    + destruct value; try discriminate; cbn; discriminate.
    + unfold convertKeyToParamterBinding, processDataPointToValue.
      cbn [String.eqb Ascii.eqb Bool.eqb]. cbv zeta.
      rewrite (is_Point_has_type_Point _ Hn). cbn [bind].
      destruct (has_type_Point value) eqn:Hp; cbn [bind].
      * intros [= <-]. cbn [values]. rewrite JSON_stringify_wrap.
        apply Forall_app. split; [exact Hacc |]. constructor; [| constructor].
        left. destruct value; try discriminate. cbn. eauto.
      * rewrite !(get_prop_property _ _ Hn). cbn [bind]. intros [= <-].
        cbn [values wrapInArray]. apply Forall_app. split; [exact Hacc |].
        constructor; [| constructor; [| constructor]]; right; exists value; auto.
  - rewrite convertKeyToParamterBinding_plain by assumption. cbn [bind].
    destruct (processDataPointToValue key value) as [v |] eqn:Hv; cbn [bind];
      [| discriminate].
    destruct (processDataPointToValue_string _ _ _ Hne Hv) as [s ->].
    intros [= <-]. cbn [values wrapInArray]. apply Forall_app. split; [exact Hacc |].
    constructor; [| constructor]. left. eauto.
Qed.

Lemma In_deleteNonGehlFields (dataPoint : Obj) (p : string * JsVal) :
  In p (deleteNonGehlFields dataPoint) -> In p dataPoint.
Proof. rewrite deleteNonGehlFields_filter. intros H. now apply filter_In in H. Qed.

(** X24. Every value bound by a produced statement is a text, except the
    longitude and the latitude of a location that is not a GeoJSON point,
    which are bound as the data point gives them. *)
Theorem transformToPostgresInsert_values_text
    (surveyId : string) (dataPoint : Obj) (r : Insert) :
  transformToPostgresInsert surveyId dataPoint = Ok r ->
  Forall (text_or_coordinate dataPoint) (insert_values r).
Proof.
  intros H. apply transformToPostgresInsert_Ok in H.
  destruct H as (acc & Hacc & _ & ->).
  unfold processKeyAndValues in Hacc.
  refine (reduce_invariant_In _
            (fun a => Forall (text_or_coordinate dataPoint) (values a))
            _ _ initialAcc acc (Forall_nil _) Hacc).
  intros a [key value] a' Hin Ha Hstep.
  apply (step_values dataPoint a a' key value); [| assumption | assumption].
  intros ->. rewrite dataPointForPostgres_app in Hin.
  apply in_app_or in Hin. destruct Hin as [Hin | Hin].
  - now apply In_deleteNonGehlFields.
  - cbn in Hin. destruct Hin as [Hin | [Hin | []]]; discriminate.
Qed.

Lemma transformToPostgresInsert_values_text_witness :
  transformToPostgresInsert "survey-1" sample_point = Ok sample_insert
  /\ Forall (text_or_coordinate sample_point) (insert_values sample_insert).
Proof.
  split; [reflexivity |].
  apply (transformToPostgresInsert_values_text "survey-1" sample_point sample_insert).
  reflexivity.
Defined.
